(** * Portfolio page behaviour (script.js): a shallow embedding

    The script binds DOM events to class and style mutations.  The page
    is modelled as a record holding what the script's fixed DOM queries
    return and the mutable properties its handlers read and write; every
    routine of the script becomes a computation in a small state and
    exception monad over that record, so that a fault raised half-way
    through a handler keeps the mutations made before it, as in
    JavaScript. *)

From Stdlib Require Import ZArith QArith String List Lia Lqa.
From stdpp Require Import base gmap list strings.

Local Open Scope string_scope.
Local Open Scope Z_scope.

(** ** Host values *)

(** A DOM node identity (the mutable inline style of an element is keyed
    by it). *)
Abbreviation node := positive.

(** [getAttribute], [getItem], [querySelector] and [getElementById]
    return [null] when there is nothing to return: [None] is [null]. *)

(** String conversion of a value that is a string or [null], as done by
    a template literal and by the selector argument of [querySelector]. *)
Definition js_to_string (v : option string) : string :=
  match v with
  | Some s => s
  | None => "null"
  end.

(** [v || d] on a value that is a string or [null]: [null] and the empty
    string are falsy. *)
Definition js_or (v : option string) (d : string) : string :=
  match v with
  | Some s => if String.eqb s "" then d else s
  | None => d
  end.

(** [a === b] where [a] is a string or [null] and [b] is a string. *)
Definition js_strict_eq (a : option string) (b : string) : bool :=
  match a with
  | Some s => String.eqb s b
  | None => false
  end.

(** ** DOMTokenList ([classList]) as an ordered list without repetition *)

Definition classList_contains (c : string) (l : list string) : bool :=
  bool_decide (c ∈ l).

Definition classList_add (c : string) (l : list string) : list string :=
  if classList_contains c l then l else l ++ [c].

Definition classList_remove (c : string) (l : list string) : list string :=
  filter (fun x => x ≠ c) l.

(** ** Elements as the script sees them *)

(** An element of [querySelectorAll('.nav-link')]. *)
Record NavLink := {
  href : option string;          (* getAttribute('href') *)
  link_classList : list string
}.

(** An element of [querySelectorAll('section, header')], or the element a
    selector resolves to. *)
Record Element := {
  el_id : option string;         (* getAttribute('id') *)
  offsetTop : Z
}.

(** The inline style properties the script writes; the empty string is an
    unset property. *)
Record Style := {
  opacity : string;
  transform : string;
  transition : string;
  zIndex : string
}.

Definition no_style : Style :=
  {| opacity := ""; transform := ""; transition := ""; zIndex := "" |}.

(** An element of [querySelectorAll('.project-card')]. *)
Record Card := {
  card_node : node;
  projectLink : bool;            (* card.querySelector('.project-link') is not null *)
  projectTitle : option string   (* textContent of card.querySelector('.project-title') *)
}.

(** An IntersectionObserverEntry. *)
Record Entry := {
  target : node;
  isIntersecting : bool
}.

(** The listeners the script registers; a closure over a link or a card
    is named by the position of that link or card in its NodeList. *)
Inductive Listener :=
  | DOMContentLoaded
  | ThemeToggleClick
  | NavLinkClick (i : nat)
  | WindowScroll
  | CardMouseEnter (c : nat)
  | CardMouseLeave (c : nat)
  | ProjectLinkClick (c : nat).

#[global] Instance Listener_eq_dec : EqDecision Listener.
Proof. solve_decision. Defined.

Inductive JsError := TypeError | SyntaxError.

#[global] Instance JsError_eq_dec : EqDecision JsError.
Proof. solve_decision. Defined.

(** ** The page *)

Record Page := {
  body_classList : list string;         (* document.body.classList *)
  themeToggle : option string;          (* textContent of #themeToggle; None: no such element *)
  navLinks : list NavLink;              (* document.querySelectorAll('.nav-link') *)
  navMenu : option (list string);       (* classList of .nav-menu; None: no such element *)
  sections : list Element;              (* document.querySelectorAll('section, header'), document order *)
  pageYOffset : Q;                      (* window.pageYOffset *)
  revealElements : list node;           (* querySelectorAll('.project-card, .skill-tag, .about-text') *)
  projectCards : list Card;             (* querySelectorAll('.project-card') *)
  inline_style : gmap node Style;       (* el.style of every element that has one *)
  observed : gset node;                 (* targets of the IntersectionObserver *)
  localStorage : gmap string string;
  listeners : list Listener;            (* registered by addEventListener *)
  scroll_requests : list Z;             (* tops passed to window.scrollTo, latest last *)
  console : list string;                (* console.log lines, latest last *)
  defaultPrevented : bool;              (* of the event being dispatched *)
  head_styles : list string             (* textContent of style elements appended to head *)
}.

Definition set_body_classList (v : list string) (p : Page) : Page :=
  {| body_classList := v; themeToggle := themeToggle p; navLinks := navLinks p;
     navMenu := navMenu p; sections := sections p; pageYOffset := pageYOffset p;
     revealElements := revealElements p; projectCards := projectCards p;
     inline_style := inline_style p; observed := observed p;
     localStorage := localStorage p; listeners := listeners p;
     scroll_requests := scroll_requests p; console := console p;
     defaultPrevented := defaultPrevented p; head_styles := head_styles p |}.

Definition set_themeToggle (v : option string) (p : Page) : Page :=
  {| body_classList := body_classList p; themeToggle := v; navLinks := navLinks p;
     navMenu := navMenu p; sections := sections p; pageYOffset := pageYOffset p;
     revealElements := revealElements p; projectCards := projectCards p;
     inline_style := inline_style p; observed := observed p;
     localStorage := localStorage p; listeners := listeners p;
     scroll_requests := scroll_requests p; console := console p;
     defaultPrevented := defaultPrevented p; head_styles := head_styles p |}.

Definition set_navLinks (v : list NavLink) (p : Page) : Page :=
  {| body_classList := body_classList p; themeToggle := themeToggle p; navLinks := v;
     navMenu := navMenu p; sections := sections p; pageYOffset := pageYOffset p;
     revealElements := revealElements p; projectCards := projectCards p;
     inline_style := inline_style p; observed := observed p;
     localStorage := localStorage p; listeners := listeners p;
     scroll_requests := scroll_requests p; console := console p;
     defaultPrevented := defaultPrevented p; head_styles := head_styles p |}.

Definition set_navMenu (v : option (list string)) (p : Page) : Page :=
  {| body_classList := body_classList p; themeToggle := themeToggle p; navLinks := navLinks p;
     navMenu := v; sections := sections p; pageYOffset := pageYOffset p;
     revealElements := revealElements p; projectCards := projectCards p;
     inline_style := inline_style p; observed := observed p;
     localStorage := localStorage p; listeners := listeners p;
     scroll_requests := scroll_requests p; console := console p;
     defaultPrevented := defaultPrevented p; head_styles := head_styles p |}.

Definition set_inline_style (v : gmap node Style) (p : Page) : Page :=
  {| body_classList := body_classList p; themeToggle := themeToggle p; navLinks := navLinks p;
     navMenu := navMenu p; sections := sections p; pageYOffset := pageYOffset p;
     revealElements := revealElements p; projectCards := projectCards p;
     inline_style := v; observed := observed p;
     localStorage := localStorage p; listeners := listeners p;
     scroll_requests := scroll_requests p; console := console p;
     defaultPrevented := defaultPrevented p; head_styles := head_styles p |}.

Definition set_observed (v : gset node) (p : Page) : Page :=
  {| body_classList := body_classList p; themeToggle := themeToggle p; navLinks := navLinks p;
     navMenu := navMenu p; sections := sections p; pageYOffset := pageYOffset p;
     revealElements := revealElements p; projectCards := projectCards p;
     inline_style := inline_style p; observed := v;
     localStorage := localStorage p; listeners := listeners p;
     scroll_requests := scroll_requests p; console := console p;
     defaultPrevented := defaultPrevented p; head_styles := head_styles p |}.

Definition set_localStorage (v : gmap string string) (p : Page) : Page :=
  {| body_classList := body_classList p; themeToggle := themeToggle p; navLinks := navLinks p;
     navMenu := navMenu p; sections := sections p; pageYOffset := pageYOffset p;
     revealElements := revealElements p; projectCards := projectCards p;
     inline_style := inline_style p; observed := observed p;
     localStorage := v; listeners := listeners p;
     scroll_requests := scroll_requests p; console := console p;
     defaultPrevented := defaultPrevented p; head_styles := head_styles p |}.

Definition set_listeners (v : list Listener) (p : Page) : Page :=
  {| body_classList := body_classList p; themeToggle := themeToggle p; navLinks := navLinks p;
     navMenu := navMenu p; sections := sections p; pageYOffset := pageYOffset p;
     revealElements := revealElements p; projectCards := projectCards p;
     inline_style := inline_style p; observed := observed p;
     localStorage := localStorage p; listeners := v;
     scroll_requests := scroll_requests p; console := console p;
     defaultPrevented := defaultPrevented p; head_styles := head_styles p |}.

Definition set_scroll_requests (v : list Z) (p : Page) : Page :=
  {| body_classList := body_classList p; themeToggle := themeToggle p; navLinks := navLinks p;
     navMenu := navMenu p; sections := sections p; pageYOffset := pageYOffset p;
     revealElements := revealElements p; projectCards := projectCards p;
     inline_style := inline_style p; observed := observed p;
     localStorage := localStorage p; listeners := listeners p;
     scroll_requests := v; console := console p;
     defaultPrevented := defaultPrevented p; head_styles := head_styles p |}.

Definition set_console (v : list string) (p : Page) : Page :=
  {| body_classList := body_classList p; themeToggle := themeToggle p; navLinks := navLinks p;
     navMenu := navMenu p; sections := sections p; pageYOffset := pageYOffset p;
     revealElements := revealElements p; projectCards := projectCards p;
     inline_style := inline_style p; observed := observed p;
     localStorage := localStorage p; listeners := listeners p;
     scroll_requests := scroll_requests p; console := v;
     defaultPrevented := defaultPrevented p; head_styles := head_styles p |}.

Definition set_defaultPrevented (v : bool) (p : Page) : Page :=
  {| body_classList := body_classList p; themeToggle := themeToggle p; navLinks := navLinks p;
     navMenu := navMenu p; sections := sections p; pageYOffset := pageYOffset p;
     revealElements := revealElements p; projectCards := projectCards p;
     inline_style := inline_style p; observed := observed p;
     localStorage := localStorage p; listeners := listeners p;
     scroll_requests := scroll_requests p; console := console p;
     defaultPrevented := v; head_styles := head_styles p |}.

Definition set_head_styles (v : list string) (p : Page) : Page :=
  {| body_classList := body_classList p; themeToggle := themeToggle p; navLinks := navLinks p;
     navMenu := navMenu p; sections := sections p; pageYOffset := pageYOffset p;
     revealElements := revealElements p; projectCards := projectCards p;
     inline_style := inline_style p; observed := observed p;
     localStorage := localStorage p; listeners := listeners p;
     scroll_requests := scroll_requests p; console := console p;
     defaultPrevented := defaultPrevented p; head_styles := v |}.

(** ** Handlers as state-and-exception computations *)

Inductive Completion (A : Type) :=
  | Normal (a : A)
  | Throw (e : JsError).
Arguments Normal {A} a.
Arguments Throw {A} e.

Definition Js (A : Type) : Type := Page -> Completion A * Page.

Definition ret {A} (a : A) : Js A := fun p => (Normal a, p).

Definition throw {A} (e : JsError) : Js A := fun p => (Throw e, p).

Definition bind {A B} (c : Js A) (k : A -> Js B) : Js B :=
  fun p =>
    match c p with
    | (Normal a, p') => k a p'
    | (Throw e, p') => (Throw e, p')
    end.

Definition gets {A} (f : Page -> A) : Js A := fun p => (Normal (f p), p).

Definition modify (f : Page -> Page) : Js unit := fun p => (Normal tt, f p).

Notation "x <- c1 ;; c2" := (bind c1 (fun x => c2))
  (at level 100, c1 at next level, right associativity).
Notation "c1 ;; c2" := (bind c1 (fun _ => c2))
  (at level 100, right associativity).

(** [list.forEach(f)]. *)
Fixpoint forEach {A} (l : list A) (f : A -> Js unit) : Js unit :=
  match l with
  | [] => ret tt
  | x :: l' => f x ;; forEach l' f
  end.

(** The final page and the completion of a computation. *)
Definition exec {A} (c : Js A) (p : Page) : Page := snd (c p).
Definition completion {A} (c : Js A) (p : Page) : Completion A := fst (c p).

Definition faults {A} (c : Js A) (p : Page) : bool :=
  match completion c p with
  | Normal _ => false
  | Throw _ => true
  end.

(** ** Theme toggle *)

(** The two glyphs, byte for byte as the source file holds them. *)
Definition sun_glyph : string := "â˜€ï¸".
Definition moon_glyph : string := "ðŸŒ™".

Definition body_classList_contains (c : string) : Js bool :=
  gets (fun p => classList_contains c (body_classList p)).

Definition body_classList_add (c : string) : Js unit :=
  modify (fun p => set_body_classList (classList_add c (body_classList p)) p).

Definition body_classList_remove (c : string) : Js unit :=
  modify (fun p => set_body_classList (classList_remove c (body_classList p)) p).

(** [themeToggle.textContent = g]: a TypeError when [themeToggle] is null. *)
Definition themeToggle_set_textContent (g : string) : Js unit :=
  fun p =>
    match themeToggle p with
    | Some _ => (Normal tt, set_themeToggle (Some g) p)
    | None => (Throw TypeError, p)
    end.

(** [themeToggle.addEventListener('click', ...)]. *)
Definition themeToggle_addEventListener (l : Listener) : Js unit :=
  fun p =>
    match themeToggle p with
    | Some _ => (Normal tt, set_listeners (listeners p ++ [l]) p)
    | None => (Throw TypeError, p)
    end.

Definition addEventListener (l : Listener) : Js unit :=
  modify (fun p => set_listeners (listeners p ++ [l]) p).

Definition localStorage_getItem (k : string) : Js (option string) :=
  gets (fun p => localStorage p !! k).

Definition localStorage_setItem (k v : string) : Js unit :=
  modify (fun p => set_localStorage (<[k := v]> (localStorage p)) p).

Definition applyTheme (theme : string) : Js unit :=
  if String.eqb theme "dark" then
    body_classList_add "dark-mode" ;;
    themeToggle_set_textContent sun_glyph
  else
    body_classList_remove "dark-mode" ;;
    themeToggle_set_textContent moon_glyph.

(** The click listener of the toggle button. *)
Definition themeToggle_click : Js unit :=
  dark <- body_classList_contains "dark-mode" ;;
  let newTheme := if dark : bool then "light" else "dark" in
  applyTheme newTheme ;;
  localStorage_setItem "theme" newTheme.

Definition initThemeToggle : Js unit :=
  stored <- localStorage_getItem "theme" ;;
  let currentTheme := js_or stored "light" in
  applyTheme currentTheme ;;
  themeToggle_addEventListener ThemeToggleClick.

(** ** Inline styles *)

Definition style_of (p : Page) (n : node) : Style :=
  default no_style (inline_style p !! n).

Definition with_opacity (v : string) (st : Style) : Style :=
  {| opacity := v; transform := transform st;
     transition := transition st; zIndex := zIndex st |}.

Definition with_transform (v : string) (st : Style) : Style :=
  {| opacity := opacity st; transform := v;
     transition := transition st; zIndex := zIndex st |}.

Definition with_transition (v : string) (st : Style) : Style :=
  {| opacity := opacity st; transform := transform st;
     transition := v; zIndex := zIndex st |}.

Definition with_zIndex (v : string) (st : Style) : Style :=
  {| opacity := opacity st; transform := transform st;
     transition := transition st; zIndex := v |}.

(** [el.style.prop = v] for the element [n]. *)
Definition set_style (n : node) (f : Style -> Style) : Js unit :=
  modify (fun p => set_inline_style (<[n := f (style_of p n)]> (inline_style p)) p).

(** ** Scroll reveal *)

Definition observer_observe (n : node) : Js unit :=
  modify (fun p => set_observed ({[n]} ∪ observed p) p).

Definition observer_unobserve (n : node) : Js unit :=
  modify (fun p => set_observed (observed p ∖ {[n]}) p).

(** The callback given to [new IntersectionObserver]. *)
Definition observer_callback (entries : list Entry) : Js unit :=
  forEach entries (fun entry =>
    if isIntersecting entry then
      set_style (target entry) (with_opacity "1") ;;
      set_style (target entry) (with_transform "translateY(0)") ;;
      observer_unobserve (target entry)
    else ret tt).

Definition initScrollReveal : Js unit :=
  els <- gets revealElements ;;
  forEach els (fun el =>
    set_style el (with_opacity "0") ;;
    set_style el (with_transform "translateY(20px)") ;;
    set_style el (with_transition "opacity 600ms ease-out, transform 600ms ease-out") ;;
    observer_observe el).

(** ** Active navigation link tracking *)

(** The [sections.forEach] loop of the scroll listener: [cur] is
    [currentSection], which starts as the empty string. *)
Definition scan_sections (y : Q) (secs : list Element) : option string :=
  fold_left
    (fun cur section =>
       let sectionTop := offsetTop section - 100 in
       if Qle_bool (inject_Z sectionTop) y then el_id section else cur)
    secs (Some "").

(** The body of the [navLinks.forEach] loop of the scroll listener. *)
Definition mark_link (currentSection : option string) (link : NavLink) : NavLink :=
  let removed := classList_remove "active" (link_classList link) in
  if js_strict_eq (href link) ("#" +:+ js_to_string currentSection) then
    {| href := href link; link_classList := classList_add "active" removed |}
  else
    {| href := href link; link_classList := removed |}.

(** The scroll listener. *)
Definition window_scroll : Js unit :=
  secs <- gets sections ;;
  y <- gets pageYOffset ;;
  let currentSection := scan_sections y secs in
  modify (fun p => set_navLinks (mark_link currentSection <$> navLinks p) p).

Definition initActiveNavTracking : Js unit :=
  addEventListener WindowScroll.

Definition active_nav_css : string :=
  "
    .nav-link.active {
      color: var(--color-primary);
    }
    
    .nav-link.active::after {
      width: 100%;
    }
  ".

Definition addActiveNavStyles : Js unit :=
  modify (fun p => set_head_styles (head_styles p ++ [active_nav_css]) p).

(** ** Project cards *)

Definition console_log (s : string) : Js unit :=
  modify (fun p => set_console (console p ++ [s]) p).

Definition card_mouseenter (card : Card) : Js unit :=
  set_style (card_node card) (with_zIndex "1").

Definition card_mouseleave (card : Card) : Js unit :=
  set_style (card_node card) (with_zIndex "0").

(** The click listener of a card's link: reading [textContent] of a
    missing title is a TypeError. *)
Definition projectLink_click (card : Card) : Js unit :=
  match projectTitle card with
  | Some title => console_log ("Navigating to project: " +:+ title)
  | None => throw TypeError
  end.

Definition initProjectCardInteractions : Js unit :=
  cards <- gets projectCards ;;
  forEach (imap pair cards) (fun '(c, card) =>
    addEventListener (CardMouseEnter c) ;;
    addEventListener (CardMouseLeave c) ;;
    if projectLink card then addEventListener (ProjectLinkClick c) else ret tt).

(** ** Smooth-scroll navigation, start-up and dispatch *)

Section Script.

(** The host's selector engine on the current page: what
    [document.querySelector(sel)] completes with, a SyntaxError for a
    string that is no selector, [null], or the first match. *)
Variable document_querySelector : Page -> string -> Completion (option Element).

Definition querySelector (sel : string) : Js (option Element) :=
  fun p => (document_querySelector p sel, p).

Definition preventDefault : Js unit :=
  modify (set_defaultPrevented true).

(** [window.scrollTo({ top, behavior: 'smooth' })]. *)
Definition window_scrollTo (top : Z) : Js unit :=
  modify (fun p => set_scroll_requests (scroll_requests p ++ [top]) p).

Definition navMenu_classList_contains (c : string) : Js bool :=
  fun p =>
    match navMenu p with
    | Some cl => (Normal (classList_contains c cl), p)
    | None => (Throw TypeError, p)
    end.

Definition navMenu_classList_remove (c : string) : Js unit :=
  fun p =>
    match navMenu p with
    | Some cl => (Normal tt, set_navMenu (Some (classList_remove c cl)) p)
    | None => (Throw TypeError, p)
    end.

(** The click listener of a navigation link. *)
Definition navLink_click (link : NavLink) : Js unit :=
  preventDefault ;;
  let targetId := href link in
  targetSection <- querySelector (js_to_string targetId) ;;
  match targetSection with
  | Some section =>
      let top := offsetTop section - 60 in
      window_scrollTo top ;;
      active <- navMenu_classList_contains "active" ;;
      if active : bool then navMenu_classList_remove "active" else ret tt
  | None => ret tt
  end.

(** What the lookup made by that listener completes with: the selector
    is the link's href, resolved once the default is prevented. *)
Definition lookup_target (link : NavLink) (p : Page) : Completion (option Element) :=
  completion (querySelector (js_to_string (href link))) (exec preventDefault p).

(** The statements of the script outside any function. *)
Definition script_toplevel : Js unit :=
  links <- gets navLinks ;;
  forEach (imap pair links) (fun '(i, _) => addEventListener (NavLinkClick i)) ;;
  addEventListener DOMContentLoaded.

Definition domContentLoaded : Js unit :=
  console_log "Portfolio loaded and initialized" ;;
  initThemeToggle ;;
  initScrollReveal ;;
  initActiveNavTracking ;;
  addActiveNavStyles ;;
  initProjectCardInteractions.

(** The body of a registered listener; a listener over a link or card
    that is not in its NodeList does not exist. *)
Definition handler (l : Listener) : Js unit :=
  match l with
  | DOMContentLoaded => domContentLoaded
  | ThemeToggleClick => themeToggle_click
  | NavLinkClick i =>
      link <- gets (fun p => navLinks p !! i) ;;
      match link with
      | Some link => navLink_click link
      | None => ret tt
      end
  | WindowScroll => window_scroll
  | CardMouseEnter c =>
      card <- gets (fun p => projectCards p !! c) ;;
      match card with
      | Some card => card_mouseenter card
      | None => ret tt
      end
  | CardMouseLeave c =>
      card <- gets (fun p => projectCards p !! c) ;;
      match card with
      | Some card => card_mouseleave card
      | None => ret tt
      end
  | ProjectLinkClick c =>
      card <- gets (fun p => projectCards p !! c) ;;
      match card with
      | Some card => projectLink_click card
      | None => ret tt
      end
  end.

(** What the host runs: an event reaches a listener only when that
    listener is registered, and the observer reports only targets it
    observes. *)
Inductive Operation :=
  | Fire (l : Listener)
  | Notify (entries : list Entry).

Definition step (op : Operation) : Js unit :=
  match op with
  | Fire l =>
      registered <- gets (fun p => bool_decide (l ∈ listeners p)) ;;
      if registered : bool then
        modify (set_defaultPrevented false) ;;
        handler l
      else ret tt
  | Notify entries =>
      obs <- gets observed ;;
      observer_callback (filter (fun e => target e ∈ obs) entries)
  end.

(** Loading the page: the script runs, then DOMContentLoaded fires. *)
Definition startup : Js unit :=
  script_toplevel ;;
  step (Fire DOMContentLoaded).

(** A run of operations; an uncaught fault ends its own listener only. *)
Definition run (ops : list Operation) (p : Page) : Page :=
  fold_left (fun q op => exec (step op) q) ops p.

End Script.

(** ** Observations used by the statements *)

(** The visible theme: whether the body carries the dark-mode class. *)
Definition dark_mode (p : Page) : bool :=
  classList_contains "dark-mode" (body_classList p).

(** The persisted theme value. *)
Definition stored_theme (p : Page) : option string :=
  localStorage p !! "theme".

(** The theme string and the glyph that go with a visible theme. *)
Definition theme_of (dark : bool) : string :=
  if dark then "dark" else "light".

Definition glyph_of (dark : bool) : string :=
  if dark then sun_glyph else moon_glyph.

(** The stored value, if present, is one of the two recognized strings. *)
Definition theme_recognized (p : Page) : bool :=
  match stored_theme p with
  | Some v => String.eqb v "light" || String.eqb v "dark"
  | None => true
  end.

Definition is_active (l : NavLink) : bool :=
  classList_contains "active" (link_classList l).

Definition active_count (ls : list NavLink) : nat :=
  length (filter (fun l => is_active l = true) ls).

(** As the specification words the active section: the last element, in
    document order, whose top minus 100 pixels is at most the scroll
    offset. *)
Definition qualifies (y : Q) (s : Element) : Prop :=
  (inject_Z (offsetTop s - 100) <= y)%Q.

#[global] Instance qualifies_dec y s : Decision (qualifies y s).
Proof.
  unfold qualifies.
  destruct (Qlt_le_dec y (inject_Z (offsetTop s - 100))) as [Hlt | Hle].
  - right. apply Qlt_not_le. exact Hlt.
  - left. exact Hle.
Defined.

Definition last_qualifying (y : Q) (secs : list Element) : option Element :=
  last (filter (qualifies y) secs).

(** The text that follows '#' in the href of the link to highlight. *)
Definition current_section_text (p : Page) : string :=
  match last_qualifying (pageYOffset p) (sections p) with
  | Some s => js_to_string (el_id s)
  | None => ""
  end.

(** A link with its 'active' class removed. *)
Definition deactivated (l : NavLink) : NavLink :=
  {| href := href l; link_classList := classList_remove "active" (link_classList l) |}.

(** The two states of a reveal-eligible element. *)
Definition is_hidden (st : Style) : bool :=
  String.eqb (opacity st) "0" && String.eqb (transform st) "translateY(20px)".

Definition is_visible (st : Style) : bool :=
  String.eqb (opacity st) "1" && String.eqb (transform st) "translateY(0)".

(** The pages seen before and after each of a sequence of intersection
    notifications. *)
Fixpoint reveal_trace (ns : list (list Entry)) (p : Page) : list Page :=
  p :: match ns with
       | [] => []
       | entries :: ns' => reveal_trace ns' (exec (observer_callback entries) p)
       end.

(** How many times the element goes from not visible to visible along a
    trace. *)
Fixpoint reveal_count (e : node) (tr : list Page) : nat :=
  match tr with
  | p1 :: (p2 :: _) as rest =>
      ((if negb (is_visible (style_of p1 e)) && is_visible (style_of p2 e)
        then 1 else 0) + reveal_count e rest)%nat
  | _ => 0%nat
  end.

(** The latch of a reveal-eligible element: hidden and still observed,
    or visible and no longer observed. *)
Definition latched (e : node) (p : Page) : Prop :=
  (is_hidden (style_of p e) = true /\ e ∈ observed p) \/
  (is_visible (style_of p e) = true /\ e ∉ observed p).

(** A computation that leaves storage as it found it, fault or not. *)
Definition keeps_storage {A} (c : Js A) : Prop :=
  forall p, localStorage (exec c p) = localStorage p.

(** A computation that never faults. *)
Definition never_faults {A} (c : Js A) : Prop :=
  forall p, faults c p = false.

(** From a page satisfying [P] the computation completes normally, on
    a page and with a value satisfying [Q]. *)
Definition triple {A} (P : Page -> Prop) (c : Js A) (Q : A -> Page -> Prop) : Prop :=
  forall p, P p -> exists a q, c p = (Normal a, q) /\ Q a q.

(** The page has its toggle button. *)
Definition has_toggle (p : Page) : Prop := themeToggle p <> None.

(** The click listeners of card links registered on [p] that were not
    yet on [p0] all belong to cards of [p0] that have a link. *)
Definition link_listeners_guarded (p0 p : Page) : Prop :=
  forall c, ProjectLinkClick c ∈ listeners p ->
    ProjectLinkClick c ∈ listeners p0 \/
    exists card, projectCards p0 !! c = Some card /\ projectLink card = true.

(** ** Sample pages *)

Definition home : Element := {| el_id := Some "home"; offsetTop := 0 |}.
Definition about : Element := {| el_id := Some "about"; offsetTop := 600 |}.
Definition anonymous : Element := {| el_id := None; offsetTop := 1200 |}.

Definition link_to (h : string) : NavLink :=
  {| href := Some h; link_classList := ["nav-link"] |}.

(** A selector engine that knows the id selectors of [home] and [about],
    rejects the lone '#', and finds nothing else. *)
Definition sample_querySelector (_ : Page) (sel : string) : Completion (option Element) :=
  if String.eqb sel "#" then Throw SyntaxError
  else if String.eqb sel "#home" then Normal (Some home)
  else if String.eqb sel "#about" then Normal (Some about)
  else Normal None.

Definition sample_card : Card :=
  {| card_node := 7%positive; projectLink := true; projectTitle := Some "Portfolio" |}.

(** The page as it is before the script runs, nothing persisted. *)
Definition sample_page : Page :=
  {| body_classList := [];
     themeToggle := Some "";
     navLinks := [link_to "#home"; link_to "#about"; link_to "#contact"];
     navMenu := Some ["nav-menu"];
     sections := [home; about; anonymous];
     pageYOffset := 0;
     revealElements := [7%positive; 8%positive];
     projectCards := [sample_card];
     inline_style := ∅;
     observed := ∅;
     localStorage := ∅;
     listeners := [];
     scroll_requests := [];
     console := [];
     defaultPrevented := false;
     head_styles := [] |}.

(** The sample page scrolled to [y]. *)
Definition scrolled_to (y : Q) (p : Page) : Page :=
  {| body_classList := body_classList p; themeToggle := themeToggle p; navLinks := navLinks p;
     navMenu := navMenu p; sections := sections p; pageYOffset := y;
     revealElements := revealElements p; projectCards := projectCards p;
     inline_style := inline_style p; observed := observed p;
     localStorage := localStorage p; listeners := listeners p;
     scroll_requests := scroll_requests p; console := console p;
     defaultPrevented := defaultPrevented p; head_styles := head_styles p |}.

(** Two links to the same section, as a menu and a footer have. *)
Definition twin_links_page : Page :=
  set_navLinks [link_to "#home"; link_to "#about"; link_to "#home"] sample_page.

(** A page without navigation links, menu or cards. *)
Definition bare_page : Page :=
  {| body_classList := [];
     themeToggle := Some "";
     navLinks := [];
     navMenu := None;
     sections := [home];
     pageYOffset := 0;
     revealElements := [];
     projectCards := [];
     inline_style := ∅;
     observed := ∅;
     localStorage := ∅;
     listeners := [];
     scroll_requests := [];
     console := [];
     defaultPrevented := false;
     head_styles := [] |}.

(** The sample page without its toggle button. *)
Definition no_toggle_page : Page := set_themeToggle None sample_page.

(** The sample page with an unrecognized stored theme. *)
Definition sepia_page : Page :=
  set_localStorage {[ "theme" := "sepia" ]} sample_page.

(** ** Observations used by the further properties *)

(** A computation that leaves an observation of the page as it found it,
    fault or not. *)
Definition keeps {A B} (f : Page -> B) (c : Js A) : Prop :=
  forall p, f (exec c p) = f p.


(** The inline style that the three assignments of [initScrollReveal]
    give, and the one that the two assignments of the observer callback
    give. *)
Definition hidden_style (st : Style) : Style :=
  with_transition "opacity 600ms ease-out, transform 600ms ease-out"
    (with_transform "translateY(20px)" (with_opacity "0" st)).

Definition revealed_style (st : Style) : Style :=
  with_transform "translateY(0)" (with_opacity "1" st).

(** The listeners that the card at position [c] gets. *)
Definition card_listeners (c : nat) (card : Card) : list Listener :=
  [CardMouseEnter c; CardMouseLeave c]
  ++ (if projectLink card then [ProjectLinkClick c] else []).

(** The listeners that loading a page adds, in registration order. *)
Definition startup_listeners (p : Page) : list Listener :=
  imap (fun i _ => NavLinkClick i) (navLinks p)
  ++ [DOMContentLoaded; ThemeToggleClick; WindowScroll]
  ++ mjoin (imap card_listeners (projectCards p)).

(** ** Utility functions *)

(** The faults [classList.add] raises on a token that cannot be a class
    name: a SyntaxError for the empty string, an InvalidCharacterError
    for a token that holds ASCII whitespace. *)
Inductive DOMException := DOMSyntaxError | InvalidCharacterError.

(** ASCII whitespace: tab, line feed, form feed, carriage return, space. *)
Definition is_ascii_whitespace (c : Ascii.ascii) : bool :=
  let n := Ascii.nat_of_ascii c in
  (n =? 9)%nat || (n =? 10)%nat || (n =? 12)%nat || (n =? 13)%nat || (n =? 32)%nat.

Fixpoint has_ascii_whitespace (s : string) : bool :=
  match s with
  | EmptyString => false
  | String c s' => is_ascii_whitespace c || has_ascii_whitespace s'
  end.

(** The check [classList.add(token)] makes before it changes anything. *)
Definition token_fault (token : string) : option DOMException :=
  if String.eqb token "" then Some DOMSyntaxError
  else if has_ascii_whitespace token then Some InvalidCharacterError
  else None.

(** [addClassSmooth(element, className)], on the element's class list:
    the fault raised, if any, and the class list afterwards. *)
Definition addClassSmooth (element : list string) (className : string)
    : option DOMException * list string :=
  match token_fault className with
  | Some e => (Some e, element)
  | None => (None, classList_add className element)
  end.

(** The rectangle [getBoundingClientRect] returns. *)
Record DOMRect := {
  rect_top : Q;
  rect_left : Q;
  rect_bottom : Q;
  rect_right : Q
}.

(** The sizes [isInViewport] reads off the window and the document
    element. *)
Record Viewport := {
  innerHeight : Q;
  innerWidth : Q;
  clientHeight : Q;
  clientWidth : Q
}.

(** [a || b] on numbers: zero is falsy. *)
Definition js_or_number (a b : Q) : Q :=
  if Qeq_bool a 0 then b else a.

Definition isInViewport (rect : DOMRect) (w : Viewport) : bool :=
  Qle_bool 0 (rect_top rect) &&
  Qle_bool 0 (rect_left rect) &&
  Qle_bool (rect_bottom rect) (js_or_number (innerHeight w) (clientHeight w)) &&
  Qle_bool (rect_right rect) (js_or_number (innerWidth w) (clientWidth w)).

(** One rectangle lies within another. *)
Definition rect_within (inner outer : DOMRect) : Prop :=
  (rect_top outer <= rect_top inner)%Q /\
  (rect_left outer <= rect_left inner)%Q /\
  (rect_bottom inner <= rect_bottom outer)%Q /\
  (rect_right inner <= rect_right outer)%Q.

(** ** Debounce *)

(** [debounce(func, wait)] keeps one variable, [timeout], and uses the
    host's timers.  The host is modelled by a clock, the table of pending
    timers (each holds its due time and the arguments its callback closes
    over) and a counter for timer ids; a timer expires no earlier than
    it is due, and may expire later.  Two logs record what a user of the debounced function
    can see: the calls made to it and the invocations of [func], each
    with the time it happened. *)
Module Debounce.

(** The delay argument of [setTimeout] is read as a signed 32-bit
    integer, wrapping around. *)
Definition to_int32 (z : Z) : Z :=
  let m := z mod 2 ^ 32 in
  if 2 ^ 31 <=? m then m - 2 ^ 32 else m.

(** The delay the host gives a timer: the 32-bit reading of the
    argument, a negative one counting as zero. *)
Definition timer_delay (delay : Z) : Z := Z.max 0 (to_int32 delay).

Section Debounce.

Context {A : Type}.
Variable wait : Z.

Record State := {
  now : Z;
  timers : gmap nat (Z * A);
  next_timer : nat;
  timeout : option nat;           (* the variable [timeout]; None is undefined *)
  called : list (Z * A);
  invoked : list (Z * A)
}.

(** The state when [debounce] returns, at time [t0]. *)
Definition fresh (t0 : Z) : State :=
  {| now := t0; timers := ∅; next_timer := 1; timeout := None;
     called := []; invoked := [] |}.

(** [clearTimeout(id)]: nothing happens for undefined or for an id that
    is not pending. *)
Definition clearTimeout (id : option nat) (st : State) : State :=
  match id with
  | Some i =>
      {| now := now st; timers := delete i (timers st); next_timer := next_timer st;
         timeout := timeout st; called := called st; invoked := invoked st |}
  | None => st
  end.

(** [setTimeout(later, wait)] for the [later] that closes over [args]:
    the timer is due [timer_delay wait] from now. *)
Definition setTimeout (args : A) (st : State) : nat * State :=
  (next_timer st,
   {| now := now st;
      timers := <[next_timer st := (now st + timer_delay wait, args)]> (timers st);
      next_timer := S (next_timer st);
      timeout := timeout st; called := called st; invoked := invoked st |}).

(** [func(...args)]. *)
Definition func (args : A) (st : State) : State :=
  {| now := now st; timers := timers st; next_timer := next_timer st;
     timeout := timeout st; called := called st;
     invoked := invoked st ++ [(now st, args)] |}.

(** The arrow function [later]. *)
Definition later (args : A) (st : State) : State :=
  func args (clearTimeout (timeout st) st).

(** The returned function [executedFunction]. *)
Definition executedFunction (args : A) (st : State) : State :=
  let st0 :=
    {| now := now st; timers := timers st; next_timer := next_timer st;
       timeout := timeout st; called := called st ++ [(now st, args)];
       invoked := invoked st |} in
  let st1 := clearTimeout (timeout st0) st0 in
  let '(id, st2) := setTimeout args st1 in
  {| now := now st2; timers := timers st2; next_timer := next_timer st2;
     timeout := Some id; called := called st2; invoked := invoked st2 |}.

(** What can happen: the debounced function is called, time passes, or
    the host lets a pending timer that is due expire and runs its
    callback. *)
Inductive HostOp :=
  | Call (args : A)
  | Advance (dt : Z)
  | Expire (id : nat).

Definition host_step (op : HostOp) (st : State) : State :=
  match op with
  | Call args => executedFunction args st
  | Advance dt =>
      {| now := now st + Z.max 0 dt; timers := timers st; next_timer := next_timer st;
         timeout := timeout st; called := called st; invoked := invoked st |}
  | Expire id =>
      match timers st !! id with
      | Some (due, args) =>
          if due <=? now st then
            later args
              {| now := now st; timers := delete id (timers st);
                 next_timer := next_timer st; timeout := timeout st;
                 called := called st; invoked := invoked st |}
          else st
      | None => st
      end
  end.

Definition host_run (ops : list HostOp) (st : State) : State :=
  fold_left (fun s op => host_step op s) ops st.

(** At most one timer is pending; it is the one [timeout] names and it
    belongs to the latest call. *)
Definition pending_is_latest (st : State) : Prop :=
  timers st = ∅ \/
  exists id c t0 a,
    timeout st = Some id /\
    timers st = {[ id := (t0 + timer_delay wait, a) ]} /\
    called st = (c ++ [(t0, a)])%list.

(** An invocation at time [t] with arguments [a] answers a call made
    with [a] at least the delay earlier, with no call in between. *)
Definition after_quiet (st : State) (t : Z) (a : A) : Prop :=
  exists t0,
    (t0, a) ∈ called st /\
    t0 + timer_delay wait <= t /\
    forall x, x ∈ called st -> fst x <= t0 \/ t <= fst x.

(** Every call so far was made at or before the current time, and the
    calls are logged in time order. *)
Definition calls_in_order (st : State) : Prop :=
  (forall x, x ∈ called st -> fst x <= now st) /\
  (forall c x, called st = (c ++ [x])%list -> forall y, y ∈ c -> fst y <= fst x).

(** The invocations answer calls in order, each call at most once; the
    call a pending timer belongs to is not answered yet. *)
Definition answered_once (st : State) : Prop :=
  (timers st = ∅ -> snd <$> invoked st `sublist_of` snd <$> called st) /\
  (forall c x, timers st <> ∅ -> called st = (c ++ [x])%list ->
     snd <$> invoked st `sublist_of` snd <$> c).

(** What holds of every state the debounced function can reach. *)
Definition reachable_inv (st : State) : Prop :=
  pending_is_latest st /\
  calls_in_order st /\
  (forall x, x ∈ invoked st -> fst x <= now st /\ after_quiet st (fst x) (snd x)) /\
  answered_once st.

End Debounce.

End Debounce.

(** * Properties *)

Example sun_glyph_bytes : String.length sun_glyph = 11%nat.
Proof. reflexivity. Qed.

Example moon_glyph_bytes : String.length moon_glyph = 9%nat.
Proof. reflexivity. Qed.

Example last_qualifying_sample :
  last_qualifying 520 (sections sample_page) = Some about.
Proof. vm_compute. reflexivity. Qed.

Example scan_sample : scan_sections 520 (sections sample_page) = Some "about".
Proof. vm_compute. reflexivity. Qed.

(** ** Class lists *)

Lemma classList_contains_true c l : classList_contains c l = true <-> c ∈ l.
Proof. unfold classList_contains. apply bool_decide_eq_true. Qed.

Lemma classList_contains_false c l : classList_contains c l = false <-> c ∉ l.
Proof. unfold classList_contains. apply bool_decide_eq_false. Qed.

Lemma classList_contains_add c l : classList_contains c (classList_add c l) = true.
Proof.
  unfold classList_add.
  destruct (classList_contains c l) eqn:E; [exact E |].
  apply classList_contains_true. set_solver.
Qed.

Lemma classList_contains_remove c l :
  classList_contains c (classList_remove c l) = false.
Proof.
  apply classList_contains_false. unfold classList_remove.
  rewrite list_elem_of_filter. tauto.
Qed.

Lemma classList_remove_absent c l :
  classList_contains c l = false -> classList_remove c l = l.
Proof.
  rewrite classList_contains_false. unfold classList_remove.
  induction l as [| x l IH]; intros Hc; [reflexivity |].
  rewrite filter_cons. destruct (decide (x ≠ c)) as [_ | Heq].
  - f_equal. apply IH. set_solver.
  - exfalso. apply Hc. destruct (decide (x = c)) as [-> | Hne]; [set_solver | tauto].
Qed.

(** ** Theme toggle *)

(** Unfolds the monadic plumbing of a computation run on a page. *)
Ltac js_unfold :=
  unfold exec, completion, faults, bind, ret, throw, gets, modify in *.

Lemma applyTheme_run (theme : string) (p : Page) (g : string) :
  themeToggle p = Some g ->
  applyTheme theme p =
    (Normal tt,
     if String.eqb theme "dark"
     then set_themeToggle (Some sun_glyph)
            (set_body_classList (classList_add "dark-mode" (body_classList p)) p)
     else set_themeToggle (Some moon_glyph)
            (set_body_classList (classList_remove "dark-mode" (body_classList p)) p)).
Proof.
  intros Hg. unfold applyTheme.
  destruct (String.eqb theme "dark");
    unfold body_classList_add, body_classList_remove, themeToggle_set_textContent;
    js_unfold; simpl; rewrite Hg; reflexivity.
Qed.

Lemma applyTheme_null (theme : string) (p : Page) :
  themeToggle p = None ->
  completion (applyTheme theme) p = Throw TypeError.
Proof.
  intros Hg. unfold applyTheme.
  destruct (String.eqb theme "dark");
    unfold body_classList_add, body_classList_remove, themeToggle_set_textContent;
    js_unfold; simpl; rewrite Hg; reflexivity.
Qed.

Lemma themeToggle_click_run (p : Page) (g : string) :
  themeToggle p = Some g ->
  themeToggle_click p =
    (Normal tt,
     let newTheme := theme_of (negb (dark_mode p)) in
     exec (localStorage_setItem "theme" newTheme) (exec (applyTheme newTheme) p)).
Proof.
  intros Hg. unfold themeToggle_click, body_classList_contains.
  unfold bind at 1. unfold gets. fold (dark_mode p).
  unfold bind. cbv zeta.
  assert (Hth : (if dark_mode p then "light" else "dark") = theme_of (negb (dark_mode p)))
    by (destruct (dark_mode p); reflexivity).
  rewrite Hth. unfold exec.
  rewrite (applyTheme_run _ p g Hg). reflexivity.
Qed.

Lemma themeToggle_click_storage (p : Page) (g : string) :
  themeToggle p = Some g ->
  localStorage (exec themeToggle_click p)
  = <["theme" := theme_of (negb (dark_mode p))]> (localStorage p).
Proof.
  intros Hg. unfold exec. rewrite (themeToggle_click_run p g Hg). cbv zeta.
  unfold exec. rewrite (applyTheme_run _ p g Hg).
  unfold localStorage_setItem, modify.
  destruct (String.eqb (theme_of (negb (dark_mode p))) "dark"); reflexivity.
Qed.

Lemma themeToggle_click_dark_mode (p : Page) (g : string) :
  themeToggle p = Some g ->
  dark_mode (exec themeToggle_click p) = negb (dark_mode p).
Proof.
  intros Hg. unfold exec. rewrite (themeToggle_click_run p g Hg). cbv zeta.
  unfold exec. rewrite (applyTheme_run _ p g Hg). unfold dark_mode at 1.
  destruct (dark_mode p) eqn:E; simpl.
  - apply classList_contains_remove.
  - apply classList_contains_add.
Qed.

Lemma themeToggle_click_glyph (p : Page) (g : string) :
  themeToggle p = Some g ->
  themeToggle (exec themeToggle_click p) = Some (glyph_of (negb (dark_mode p))).
Proof.
  intros Hg. unfold exec. rewrite (themeToggle_click_run p g Hg). cbv zeta.
  unfold exec. rewrite (applyTheme_run _ p g Hg).
  destruct (dark_mode p); reflexivity.
Qed.

(** C6: a click on the toggle computes the theme opposite to the visible
    one, applies it to the body class and the glyph, and persists that
    same theme string, so the persisted value matches the visible state
    after the click. *)
Theorem toggle_click_applies_and_persists_opposite (p : Page) (g : string) :
  themeToggle p = Some g ->
  let newTheme := if dark_mode p then "light" else "dark" in
  let p' := exec themeToggle_click p in
  completion themeToggle_click p = Normal tt /\
  p' = exec (localStorage_setItem "theme" newTheme) (exec (applyTheme newTheme) p) /\
  dark_mode p' = negb (dark_mode p) /\
  themeToggle p' = Some (glyph_of (negb (dark_mode p))) /\
  stored_theme p' = Some newTheme /\
  stored_theme p' = Some (theme_of (dark_mode p')).
Proof.
  intros Hg newTheme p'.
  assert (Hth : newTheme = theme_of (negb (dark_mode p)))
    by (unfold newTheme; destruct (dark_mode p); reflexivity).
  assert (Hdark : dark_mode p' = negb (dark_mode p))
    by (apply (themeToggle_click_dark_mode p g Hg)).
  assert (Hstored : stored_theme p' = Some newTheme).
  { unfold stored_theme, p'. rewrite (themeToggle_click_storage p g Hg), Hth.
    apply lookup_insert_eq. }
  repeat split.
  - unfold completion. rewrite (themeToggle_click_run p g Hg). reflexivity.
  - unfold p', exec at 1. rewrite (themeToggle_click_run p g Hg). cbv zeta.
    rewrite <- Hth. reflexivity.
  - exact Hdark.
  - apply (themeToggle_click_glyph p g Hg).
  - exact Hstored.
  - rewrite Hstored, Hdark, Hth. reflexivity.
Qed.

Lemma toggle_click_applies_and_persists_opposite_witness :
  themeToggle sample_page = Some "" /\
  stored_theme (exec themeToggle_click sample_page) = Some "dark".
Proof.
  split; [reflexivity |].
  apply (toggle_click_applies_and_persists_opposite sample_page "" eq_refl).
Defined.

(** Two clicks in a row, from any page that has the toggle button. *)
Lemma toggle_twice_run (p : Page) (g : string) :
  themeToggle p = Some g ->
  let p2 := exec (themeToggle_click ;; themeToggle_click) p in
  completion (themeToggle_click ;; themeToggle_click) p = Normal tt /\
  p2 = exec themeToggle_click (exec themeToggle_click p) /\
  dark_mode p2 = dark_mode p /\
  themeToggle p2 = Some (glyph_of (dark_mode p)) /\
  stored_theme p2 = Some (theme_of (dark_mode p)) /\
  localStorage p2 = <["theme" := theme_of (dark_mode p)]> (localStorage p).
Proof.
  intros Hg p2.
  pose proof (themeToggle_click_dark_mode p g Hg) as Hd1.
  pose proof (themeToggle_click_glyph p g Hg) as Hg1.
  pose proof (themeToggle_click_dark_mode _ _ Hg1) as Hd2.
  pose proof (themeToggle_click_glyph _ _ Hg1) as Hgl2.
  assert (Hseq : (themeToggle_click ;; themeToggle_click) p
                 = themeToggle_click (exec themeToggle_click p)).
  { unfold bind, exec. rewrite (themeToggle_click_run p g Hg). reflexivity. }
  assert (Hp2 : p2 = exec themeToggle_click (exec themeToggle_click p)).
  { unfold p2, exec at 1. rewrite Hseq. reflexivity. }
  assert (Hdd : dark_mode p2 = dark_mode p).
  { rewrite Hp2, Hd2, Hd1. apply negb_involutive. }
  repeat split.
  - unfold completion. rewrite Hseq, (themeToggle_click_run _ _ Hg1). reflexivity.
  - exact Hp2.
  - exact Hdd.
  - rewrite Hp2, Hgl2, Hd1, negb_involutive. reflexivity.
  - unfold stored_theme. rewrite Hp2, (themeToggle_click_storage _ _ Hg1).
    rewrite lookup_insert_eq, Hd1, negb_involutive. reflexivity.
  - rewrite Hp2, (themeToggle_click_storage _ _ Hg1), Hd1, negb_involutive.
    rewrite (themeToggle_click_storage p g Hg). apply insert_insert_eq.
Qed.

(** C2, as stated, fails on the page as it is after a first load with
    nothing persisted: two clicks bring back the class and the glyph, and
    leave 'light' in storage where there was no value. *)
Lemma toggle_twice_changes_absent_value :
  let p := exec initThemeToggle sample_page in
  let p2 := exec (themeToggle_click ;; themeToggle_click) p in
  themeToggle p = Some moon_glyph /\
  stored_theme p = None /\
  dark_mode p2 = dark_mode p /\
  themeToggle p2 = themeToggle p /\
  stored_theme p2 = Some "light" /\
  stored_theme p2 <> stored_theme p.
Proof.
  cbv zeta.
  assert (Hg : themeToggle (exec initThemeToggle sample_page) = Some moon_glyph)
    by reflexivity.
  destruct (toggle_twice_run _ _ Hg) as (_ & _ & Hd & Hgl & Hs & _).
  split; [exact Hg |]. split; [reflexivity |]. split; [exact Hd |].
  split; [rewrite Hgl; reflexivity |]. split; [exact Hs |].
  rewrite Hs. discriminate.
Qed.

(** C2 (amended): two clicks always restore the presence or absence of
    the dark-mode class, and leave the glyph and the persisted value that
    go with it; they restore the original glyph and the original
    persisted value when those agreed with the body class to begin with. *)
Theorem toggle_twice_restores_consistent_state (p : Page) (g : string) :
  themeToggle p = Some g ->
  let p2 := exec (themeToggle_click ;; themeToggle_click) p in
  completion (themeToggle_click ;; themeToggle_click) p = Normal tt /\
  dark_mode p2 = dark_mode p /\
  themeToggle p2 = Some (glyph_of (dark_mode p)) /\
  stored_theme p2 = Some (theme_of (dark_mode p)) /\
  (g = glyph_of (dark_mode p) ->
   stored_theme p = Some (theme_of (dark_mode p)) ->
   themeToggle p2 = themeToggle p /\
   stored_theme p2 = stored_theme p /\
   localStorage p2 = localStorage p).
Proof.
  intros Hg p2.
  destruct (toggle_twice_run p g Hg) as (Hc & _ & Hd & Hgl & Hs & Hm).
  fold p2 in Hd, Hgl, Hs, Hm.
  repeat split; try assumption.
  - rewrite Hgl, Hg. congruence.
  - rewrite Hs. congruence.
  - rewrite Hm. apply insert_id. assumption.
Qed.

Lemma toggle_twice_restores_consistent_state_witness :
  let p := exec themeToggle_click sample_page in
  themeToggle p = Some sun_glyph /\
  sun_glyph = glyph_of (dark_mode p) /\
  stored_theme p = Some (theme_of (dark_mode p)) /\
  localStorage (exec (themeToggle_click ;; themeToggle_click) p) = localStorage p.
Proof.
  cbv zeta.
  assert (Hg : themeToggle (exec themeToggle_click sample_page) = Some sun_glyph)
    by reflexivity.
  assert (Hgl : sun_glyph = glyph_of (dark_mode (exec themeToggle_click sample_page)))
    by reflexivity.
  assert (Hs : stored_theme (exec themeToggle_click sample_page)
               = Some (theme_of (dark_mode (exec themeToggle_click sample_page))))
    by reflexivity.
  split; [exact Hg |]. split; [exact Hgl |]. split; [exact Hs |].
  apply (toggle_twice_restores_consistent_state _ _ Hg); assumption.
Defined.

(** ** Theme at start-up *)

Lemma applyTheme_keeps_button (theme : string) (p : Page) (g : string) :
  themeToggle p = Some g ->
  exists g', themeToggle (exec (applyTheme theme) p) = Some g'.
Proof.
  intros Hg. unfold exec. rewrite (applyTheme_run _ p g Hg).
  destruct (String.eqb theme "dark"); eexists; reflexivity.
Qed.

Lemma initThemeToggle_run (p : Page) (g : string) :
  themeToggle p = Some g ->
  initThemeToggle p =
    (Normal tt,
     let q := exec (applyTheme (js_or (stored_theme p) "light")) p in
     set_listeners (listeners q ++ [ThemeToggleClick]) q).
Proof.
  intros Hg. unfold initThemeToggle, localStorage_getItem.
  unfold bind at 1. unfold gets. fold (stored_theme p). cbv zeta.
  destruct (applyTheme_keeps_button (js_or (stored_theme p) "light") p g Hg) as [g' Hg'].
  unfold bind, exec in *. rewrite (applyTheme_run _ p g Hg) in *.
  unfold themeToggle_addEventListener. simpl in *. rewrite Hg'. reflexivity.
Qed.

(** Start-up with a stored value that [applyTheme] does not read as
    'dark': the light theme, and storage untouched. *)
Lemma initThemeToggle_light (p : Page) (g : string) :
  themeToggle p = Some g ->
  String.eqb (js_or (stored_theme p) "light") "dark" = false ->
  let p' := exec initThemeToggle p in
  completion initThemeToggle p = Normal tt /\
  body_classList p' = classList_remove "dark-mode" (body_classList p) /\
  dark_mode p' = false /\
  themeToggle p' = Some moon_glyph /\
  localStorage p' = localStorage p.
Proof.
  intros Hg Hlight p'.
  assert (Hbody : body_classList p' = classList_remove "dark-mode" (body_classList p)).
  { unfold p', exec. rewrite (initThemeToggle_run p g Hg). cbv zeta.
    unfold exec. rewrite (applyTheme_run _ p g Hg), Hlight. reflexivity. }
  repeat split.
  - unfold completion. rewrite (initThemeToggle_run p g Hg). reflexivity.
  - exact Hbody.
  - unfold dark_mode. rewrite Hbody. apply classList_contains_remove.
  - unfold p', exec. rewrite (initThemeToggle_run p g Hg). cbv zeta.
    unfold exec. rewrite (applyTheme_run _ p g Hg), Hlight. reflexivity.
  - unfold p', exec. rewrite (initThemeToggle_run p g Hg). cbv zeta.
    unfold exec. rewrite (applyTheme_run _ p g Hg), Hlight. reflexivity.
Qed.

(** C5: with no persisted theme value at start-up, initialization leaves
    the body without the dark-mode class, sets the glyph to the moon
    ('switch to dark'), and writes nothing to storage. *)
Theorem init_without_stored_theme_is_light (p : Page) (g : string) :
  themeToggle p = Some g ->
  stored_theme p = None ->
  let p' := exec initThemeToggle p in
  completion initThemeToggle p = Normal tt /\
  dark_mode p' = false /\
  themeToggle p' = Some moon_glyph /\
  localStorage p' = localStorage p /\
  stored_theme p' = None.
Proof.
  intros Hg Hnone p'.
  assert (Hlight : String.eqb (js_or (stored_theme p) "light") "dark" = false)
    by (rewrite Hnone; reflexivity).
  destruct (initThemeToggle_light p g Hg Hlight) as (Hc & _ & Hd & Hgl & Hs).
  fold p' in Hd, Hgl, Hs.
  repeat split; try assumption.
  unfold stored_theme. rewrite Hs. exact Hnone.
Qed.

Lemma init_without_stored_theme_is_light_witness :
  themeToggle sample_page = Some "" /\
  stored_theme sample_page = None /\
  themeToggle (exec initThemeToggle sample_page) = Some moon_glyph.
Proof.
  split; [reflexivity |]. split; [reflexivity |].
  apply (init_without_stored_theme_is_light sample_page "" eq_refl eq_refl).
Defined.

Lemma js_or_not_dark (v : string) :
  v <> "dark" -> String.eqb (js_or (Some v) "light") "dark" = false.
Proof.
  intros Hv. unfold js_or.
  destruct (String.eqb v "") eqn:E; [reflexivity |].
  apply String.eqb_neq. exact Hv.
Qed.

(** C9: for every persisted value other than 'dark', recognized or not,
    start-up applies the light theme exactly as when no value is stored
    (same body class list, same glyph), and leaves the stored value as it
    was. *)
Theorem init_with_other_value_is_light (p : Page) (g v : string) :
  themeToggle p = Some g ->
  stored_theme p = Some v ->
  v <> "dark" ->
  let p' := exec initThemeToggle p in
  let q' := exec initThemeToggle (set_localStorage (delete "theme" (localStorage p)) p) in
  completion initThemeToggle p = Normal tt /\
  dark_mode p' = false /\
  themeToggle p' = Some moon_glyph /\
  body_classList p' = body_classList q' /\
  themeToggle p' = themeToggle q' /\
  localStorage p' = localStorage p /\
  stored_theme p' = Some v.
Proof.
  intros Hg Hv Hne p' q'.
  assert (Hlight : String.eqb (js_or (stored_theme p) "light") "dark" = false)
    by (rewrite Hv; apply js_or_not_dark; exact Hne).
  destruct (initThemeToggle_light p g Hg Hlight) as (Hc & Hb & Hd & Hgl & Hs).
  fold p' in Hb, Hd, Hgl, Hs.
  set (q := set_localStorage (delete "theme" (localStorage p)) p) in *.
  assert (Hgq : themeToggle q = Some g) by exact Hg.
  assert (Hnone : stored_theme q = None)
    by (unfold stored_theme, q; simpl; apply lookup_delete_eq).
  assert (Hlq : String.eqb (js_or (stored_theme q) "light") "dark" = false)
    by (rewrite Hnone; reflexivity).
  destruct (initThemeToggle_light q g Hgq Hlq) as (_ & Hbq & _ & Hglq & _).
  fold q' in Hbq, Hglq.
  repeat split; try assumption.
  - rewrite Hb, Hbq. reflexivity.
  - rewrite Hgl, Hglq. reflexivity.
  - unfold stored_theme. rewrite Hs. exact Hv.
Qed.

Lemma init_with_other_value_is_light_witness :
  themeToggle sepia_page = Some "" /\
  stored_theme sepia_page = Some "sepia" /\
  "sepia" <> "dark" /\
  stored_theme (exec initThemeToggle sepia_page) = Some "sepia".
Proof.
  assert (Hne : "sepia" <> "dark") by discriminate.
  split; [reflexivity |]. split; [reflexivity |]. split; [exact Hne |].
  apply (init_with_other_value_is_light sepia_page "" "sepia" eq_refl eq_refl Hne).
Defined.

(** ** Active navigation link *)

Lemma qualifies_Qle_bool (y : Q) (s : Element) :
  Qle_bool (inject_Z (offsetTop s - 100)) y = true <-> qualifies y s.
Proof. unfold qualifies. apply Qle_bool_iff. Qed.

(** The loop over the sections keeps the id of the last qualifying one. *)
Lemma scan_sections_from (y : Q) (secs : list Element) (cur : option string) :
  fold_left
    (fun cur section =>
       let sectionTop := offsetTop section - 100 in
       if Qle_bool (inject_Z sectionTop) y then el_id section else cur)
    secs cur
  = match last_qualifying y secs with
    | Some s => el_id s
    | None => cur
    end.
Proof.
  unfold last_qualifying.
  revert cur. induction secs as [| s secs IH]; intros cur; [reflexivity |].
  simpl fold_left. rewrite IH. rewrite filter_cons.
  destruct (Qle_bool (inject_Z (offsetTop s - 100)) y) eqn:E.
  - apply qualifies_Qle_bool in E.
    destruct (decide (qualifies y s)) as [_ | Hn]; [| contradiction].
    rewrite last_cons. destruct (last (filter (qualifies y) secs)); reflexivity.
  - destruct (decide (qualifies y s)) as [Hq | _]; [| reflexivity].
    apply qualifies_Qle_bool in Hq. congruence.
Qed.

Lemma scan_sections_last (p : Page) :
  js_to_string (scan_sections (pageYOffset p) (sections p)) = current_section_text p.
Proof.
  unfold scan_sections, current_section_text. rewrite scan_sections_from.
  destruct (last_qualifying (pageYOffset p) (sections p)); reflexivity.
Qed.

Lemma js_strict_eq_true (a : option string) (b : string) :
  js_strict_eq a b = true <-> a = Some b.
Proof.
  destruct a as [s |]; simpl.
  - rewrite String.eqb_eq. split; congruence.
  - split; discriminate.
Qed.

Lemma href_mark_link cur l : href (mark_link cur l) = href l.
Proof.
  unfold mark_link.
  destruct (js_strict_eq (href l) ("#" +:+ js_to_string cur)); reflexivity.
Qed.

Lemma is_active_mark_link cur l :
  is_active (mark_link cur l) = js_strict_eq (href l) ("#" +:+ js_to_string cur).
Proof.
  unfold mark_link, is_active.
  destruct (js_strict_eq (href l) ("#" +:+ js_to_string cur)); simpl.
  - apply classList_contains_add.
  - apply classList_contains_remove.
Qed.

Lemma mark_link_other cur l :
  js_strict_eq (href l) ("#" +:+ js_to_string cur) = false ->
  mark_link cur l = deactivated l.
Proof. intros H. unfold mark_link. rewrite H. reflexivity. Qed.

Lemma window_scroll_run (p : Page) :
  window_scroll p =
    (Normal tt,
     set_navLinks (mark_link (scan_sections (pageYOffset p) (sections p)) <$> navLinks p) p).
Proof. reflexivity. Qed.

(** Links whose hrefs differ pairwise: at most one of them is marked. *)
Lemma active_count_marked cur (ls : list NavLink) :
  NoDup (omap href ls) ->
  (active_count (mark_link cur <$> ls) <= 1)%nat.
Proof.
  set (t := "#" +:+ js_to_string cur).
  assert (Hnone : forall ls' : list NavLink,
             t ∉ omap href ls' -> active_count (mark_link cur <$> ls') = 0%nat).
  { induction ls' as [| x ls' IH]; intros Hnot; [reflexivity |].
    unfold active_count in *. rewrite fmap_cons, filter_cons.
    rewrite is_active_mark_link. fold t.
    destruct (js_strict_eq (href x) t) eqn:E.
    - apply js_strict_eq_true in E. exfalso. apply Hnot.
      apply list_elem_of_omap. exists x. split; [set_solver | exact E].
    - destruct (decide (false = true)) as [Hf | _]; [discriminate |].
      apply IH. intros Hin. apply Hnot.
      apply list_elem_of_omap in Hin as (z & Hz & Hhz).
      apply list_elem_of_omap. exists z. split; [set_solver | exact Hhz]. }
  induction ls as [| x ls IH]; intros Hnd; [unfold active_count; simpl; lia |].
  unfold active_count in *. rewrite fmap_cons, filter_cons.
  rewrite is_active_mark_link. fold t.
  destruct (js_strict_eq (href x) t) eqn:E.
  - apply js_strict_eq_true in E.
    destruct (decide (true = true)) as [_ | Hf]; [| congruence].
    simpl in Hnd. rewrite E in Hnd. apply NoDup_cons in Hnd as [Hnot _].
    simpl. specialize (Hnone ls Hnot). unfold active_count in Hnone.
    rewrite Hnone. lia.
  - destruct (decide (false = true)) as [Hf | _]; [discriminate |].
    apply IH. simpl in Hnd. destruct (href x); [| exact Hnd].
    apply NoDup_cons in Hnd as [_ Hnd]. exact Hnd.
Qed.

(** C1, as stated, fails when two links point to the same section: both
    carry the class after a scroll over that section. *)
Lemma scroll_activates_both_twin_links :
  active_count (navLinks (exec window_scroll twin_links_page)) = 2%nat /\
  ~ (active_count (navLinks (exec window_scroll twin_links_page)) <= 1)%nat.
Proof.
  assert (H : active_count (navLinks (exec window_scroll twin_links_page)) = 2%nat)
    by (vm_compute; reflexivity).
  split; [exact H | rewrite H; lia].
Qed.

(** C1 (amended): after the scroll listener runs, a link carries the
    'active' class exactly when its href is '#' followed by the id of the
    last section or header element whose top minus 100 pixels is at most
    the scroll offset ('null' for an element without id, nothing when no
    element qualifies); at most one link is active when no two links
    share an href. *)
Theorem scroll_marks_links_of_last_section (p : Page) :
  let p' := exec window_scroll p in
  completion window_scroll p = Normal tt /\
  length (navLinks p') = length (navLinks p) /\
  (forall i l', navLinks p' !! i = Some l' ->
     exists l, navLinks p !! i = Some l /\ href l' = href l /\
       (is_active l' = true <-> href l = Some ("#" +:+ current_section_text p))) /\
  (NoDup (omap href (navLinks p)) -> (active_count (navLinks p') <= 1)%nat).
Proof.
  intros p'. unfold p', exec, completion. rewrite window_scroll_run. simpl.
  split; [reflexivity |]. split; [apply length_fmap |]. split.
  - intros i l' Hl'. rewrite list_lookup_fmap in Hl'.
    destruct (navLinks p !! i) as [l |] eqn:El; [| discriminate].
    simpl in Hl'. injection Hl' as <-.
    exists l. split; [reflexivity |]. split; [apply href_mark_link |].
    rewrite is_active_mark_link, js_strict_eq_true, scan_sections_last. tauto.
  - apply active_count_marked.
Qed.

Lemma scroll_marks_links_of_last_section_witness :
  NoDup (omap href (navLinks (scrolled_to 520 sample_page))) /\
  (active_count (navLinks (exec window_scroll (scrolled_to 520 sample_page))) <= 1)%nat.
Proof.
  assert (Hnd : NoDup (omap href (navLinks (scrolled_to 520 sample_page)))).
  { apply (bool_decide_eq_true_1 (NoDup (omap href (navLinks (scrolled_to 520 sample_page))))).
    vm_compute. reflexivity. }
  split; [exact Hnd |].
  apply (scroll_marks_links_of_last_section (scrolled_to 520 sample_page)). exact Hnd.
Defined.

Example scroll_sample_marks_about :
  is_active <$> navLinks (exec window_scroll (scrolled_to 520 sample_page))
  = [false; true; false].
Proof. vm_compute. reflexivity. Qed.

Lemma is_active_deactivated l : is_active (deactivated l) = false.
Proof. unfold is_active, deactivated. simpl. apply classList_contains_remove. Qed.

(** C10: when the last qualifying section or header element has no id
    and no link has the href '#null', the scroll listener removes the
    'active' class from every link and marks none. *)
Theorem scroll_over_element_without_id_clears_links (p : Page) (s : Element) :
  last_qualifying (pageYOffset p) (sections p) = Some s ->
  el_id s = None ->
  (forall l, l ∈ navLinks p -> href l <> Some "#null") ->
  let p' := exec window_scroll p in
  completion window_scroll p = Normal tt /\
  navLinks p' = deactivated <$> navLinks p /\
  Forall (fun l => is_active l = false) (navLinks p') /\
  active_count (navLinks p') = 0%nat.
Proof.
  intros Hlast Hid Hnull p'.
  assert (Hcur : current_section_text p = "null")
    by (unfold current_section_text; rewrite Hlast, Hid; reflexivity).
  assert (Hlinks : navLinks p' = deactivated <$> navLinks p).
  { unfold p', exec. rewrite window_scroll_run. simpl.
    apply list_fmap_ext. intros i l Hl.
    apply mark_link_other. rewrite scan_sections_last, Hcur.
    destruct (js_strict_eq (href l) ("#" +:+ "null")) eqn:E; [| reflexivity].
    apply js_strict_eq_true in E. exfalso.
    apply (Hnull l); [apply list_elem_of_lookup; eauto | exact E]. }
  assert (Hall : Forall (fun l => is_active l = false) (navLinks p')).
  { rewrite Hlinks. apply Forall_fmap, Forall_forall. intros l _.
    apply is_active_deactivated. }
  repeat split; try assumption.
  unfold active_count. clear Hlinks.
  induction Hall as [| l ls Hl _ IH]; [reflexivity |].
  rewrite filter_cons. destruct (decide (is_active l = true)); [congruence | exact IH].
Qed.

Lemma scroll_over_element_without_id_clears_links_witness :
  let p := scrolled_to 1150 sample_page in
  last_qualifying (pageYOffset p) (sections p) = Some anonymous /\
  el_id anonymous = None /\
  (forall l, l ∈ navLinks p -> href l <> Some "#null") /\
  navLinks (exec window_scroll p) = deactivated <$> navLinks p.
Proof.
  cbv zeta.
  assert (Hlast : last_qualifying (pageYOffset (scrolled_to 1150 sample_page))
                    (sections (scrolled_to 1150 sample_page)) = Some anonymous)
    by (vm_compute; reflexivity).
  assert (Hnull : forall l, l ∈ navLinks (scrolled_to 1150 sample_page) ->
                            href l <> Some "#null").
  { intros l Hl. simpl in Hl.
    repeat (apply elem_of_cons in Hl as [-> | Hl]; [discriminate |]).
    apply elem_of_nil in Hl. contradiction. }
  split; [exact Hlast |]. split; [reflexivity |]. split; [exact Hnull |].
  apply (scroll_over_element_without_id_clears_links _ anonymous Hlast eq_refl Hnull).
Defined.

(** ** Smooth-scroll navigation *)

Section Navigation.

Variable qs : Page -> string -> Completion (option Element).

Lemma navLink_click_found (link : NavLink) (p : Page) (section : Element) :
  lookup_target qs link p = Normal (Some section) ->
  let p' := exec (navLink_click qs link) p in
  scroll_requests p' = (scroll_requests p ++ [offsetTop section - 60])%list /\
  defaultPrevented p' = true /\
  (navMenu p = None -> completion (navLink_click qs link) p = Throw TypeError) /\
  (forall cl, navMenu p = Some cl ->
     completion (navLink_click qs link) p = Normal tt /\
     navMenu p' = Some (classList_remove "active" cl)).
Proof.
  unfold lookup_target, navLink_click, querySelector, preventDefault,
    window_scrollTo, navMenu_classList_contains, navMenu_classList_remove.
  js_unfold. simpl. intros Hq. rewrite Hq. simpl.
  destruct (navMenu p) as [cl |] eqn:Em; simpl.
  - destruct (classList_contains "active" cl) eqn:Ec; simpl; rewrite ?Em; simpl.
    + split; [reflexivity |]. split; [reflexivity |]. split; [discriminate |].
      intros cl' [= <-]. split; reflexivity.
    + split; [reflexivity |]. split; [reflexivity |]. split; [discriminate |].
      intros cl' [= <-]. split; [reflexivity |].
      f_equal. symmetry.
      apply classList_remove_absent. exact Ec.
  - split; [reflexivity |]. split; [reflexivity |]. split; [reflexivity |].
    discriminate.
Qed.

Lemma navLink_click_not_found (link : NavLink) (p : Page) :
  lookup_target qs link p = Normal None ->
  navLink_click qs link p = (Normal tt, set_defaultPrevented true p).
Proof.
  unfold lookup_target, navLink_click, querySelector, preventDefault.
  js_unfold. simpl. intros Hq. rewrite Hq. reflexivity.
Qed.

Lemma navLink_click_bad_selector (link : NavLink) (p : Page) (e : JsError) :
  lookup_target qs link p = Throw e ->
  navLink_click qs link p = (Throw e, set_defaultPrevented true p).
Proof.
  unfold lookup_target, navLink_click, querySelector, preventDefault.
  js_unfold. simpl. intros Hq. rewrite Hq. reflexivity.
Qed.

(** C3 (amended): a click on a navigation link whose href selects an
    element asks the window to scroll to that element's offsetTop minus
    60; when the href is a selector that matches nothing, nothing is
    scrolled, the default navigation is still suppressed, and the
    listener ends without a fault; when the href is no selector at all,
    nothing is scrolled and the default navigation is still suppressed,
    but the listener ends in the fault the lookup raises. *)
Theorem navLink_click_scrolls_or_does_nothing (link : NavLink) (p : Page) :
  let p' := exec (navLink_click qs link) p in
  (forall section, lookup_target qs link p = Normal (Some section) ->
     scroll_requests p' = (scroll_requests p ++ [offsetTop section - 60])%list /\
     defaultPrevented p' = true) /\
  (lookup_target qs link p = Normal None ->
     completion (navLink_click qs link) p = Normal tt /\
     scroll_requests p' = scroll_requests p /\
     defaultPrevented p' = true /\
     p' = set_defaultPrevented true p) /\
  (forall e, lookup_target qs link p = Throw e ->
     completion (navLink_click qs link) p = Throw e /\
     scroll_requests p' = scroll_requests p /\
     defaultPrevented p' = true /\
     p' = set_defaultPrevented true p).
Proof.
  intros p'. split; [| split].
  - intros section Hq.
    destruct (navLink_click_found link p section Hq) as (Hs & Hd & _).
    split; assumption.
  - intros Hq. unfold p', exec, completion.
    rewrite (navLink_click_not_found link p Hq). repeat split.
  - intros e Hq. unfold p', exec, completion.
    rewrite (navLink_click_bad_selector link p e Hq). repeat split.
Qed.

End Navigation.

(** C3, as stated, fails for an href that is no selector: on a link to a
    lone '#' the lookup finds no element, and the listener ends in a
    SyntaxError instead of ending quietly. *)
Lemma navLink_click_on_lone_hash_raises :
  (forall section,
     lookup_target sample_querySelector (link_to "#") sample_page
     <> Normal (Some section)) /\
  scroll_requests (exec (navLink_click sample_querySelector (link_to "#")) sample_page)
    = scroll_requests sample_page /\
  completion (navLink_click sample_querySelector (link_to "#")) sample_page
    = Throw SyntaxError /\
  completion (navLink_click sample_querySelector (link_to "#")) sample_page
    <> Normal tt.
Proof.
  split; [intros section; discriminate |].
  split; [reflexivity |]. split; [reflexivity | discriminate].
Qed.

Lemma navLink_click_scrolls_or_does_nothing_witness :
  lookup_target sample_querySelector (link_to "#about") sample_page = Normal (Some about) /\
  lookup_target sample_querySelector (link_to "#contact") sample_page = Normal None /\
  lookup_target sample_querySelector (link_to "#") sample_page = Throw SyntaxError /\
  scroll_requests (exec (navLink_click sample_querySelector (link_to "#about")) sample_page)
    = [540] /\
  scroll_requests (exec (navLink_click sample_querySelector (link_to "#contact")) sample_page)
    = [] /\
  completion (navLink_click sample_querySelector (link_to "#")) sample_page
    = Throw SyntaxError.
Proof.
  split; [reflexivity |]. split; [reflexivity |]. split; [reflexivity |].
  split; [| split].
  - destruct (navLink_click_scrolls_or_does_nothing sample_querySelector
                (link_to "#about") sample_page) as [Hfound _].
    exact (proj1 (Hfound about eq_refl)).
  - destruct (navLink_click_scrolls_or_does_nothing sample_querySelector
                (link_to "#contact") sample_page) as (_ & Hnone & _).
    exact (proj1 (proj2 (Hnone eq_refl))).
  - destruct (navLink_click_scrolls_or_does_nothing sample_querySelector
                (link_to "#") sample_page) as (_ & _ & Hbad).
    exact (proj1 (Hbad SyntaxError eq_refl)).
Defined.

(** ** Scroll reveal *)

(** A loop whose body never faults is a fold over the list. *)
Lemma forEach_total {A} (l : list A) (f : A -> Js unit) (p : Page) :
  (forall x q, completion (f x) q = Normal tt) ->
  forEach l f p = (Normal tt, fold_left (fun q x => exec (f x) q) l p).
Proof.
  intros Hf. revert p. induction l as [| x l IH]; intros p; [reflexivity |].
  simpl. unfold bind. specialize (Hf x p). unfold completion, exec in *.
  destruct (f x p) as [[[] | e] q]; simpl in *; [apply IH | discriminate].
Qed.

Lemma style_of_set_style_eq (n : node) (f : Style -> Style) (p : Page) :
  style_of (exec (set_style n f) p) n = f (style_of p n).
Proof. unfold style_of at 1. simpl. rewrite lookup_insert_eq. reflexivity. Qed.

Lemma style_of_set_style_ne (n e : node) (f : Style -> Style) (p : Page) :
  n <> e -> style_of (exec (set_style n f) p) e = style_of p e.
Proof.
  intros Hne. unfold style_of at 1. simpl.
  rewrite lookup_insert_ne by exact Hne. reflexivity.
Qed.

Lemma hidden_not_visible (st : Style) :
  is_hidden st = true -> is_visible st = false.
Proof.
  unfold is_hidden, is_visible. intros H.
  apply andb_true_iff in H as [Ho _]. apply String.eqb_eq in Ho.
  rewrite Ho. reflexivity.
Qed.

(** The body of the observer callback, on one entry. *)
Lemma reveal_entry_total (entry : Entry) (q : Page) :
  completion
    (if isIntersecting entry then
       set_style (target entry) (with_opacity "1") ;;
       set_style (target entry) (with_transform "translateY(0)") ;;
       observer_unobserve (target entry)
     else ret tt) q = Normal tt.
Proof. destruct (isIntersecting entry); reflexivity. Qed.

Lemma reveal_entry_latch (entry : Entry) (e : node) (p : Page) :
  let q := exec
    (if isIntersecting entry then
       set_style (target entry) (with_opacity "1") ;;
       set_style (target entry) (with_transform "translateY(0)") ;;
       observer_unobserve (target entry)
     else ret tt) p in
  latched e p ->
  latched e q /\
  (is_visible (style_of p e) = true -> is_visible (style_of q e) = true).
Proof.
  intros q Hl. subst q.
  destruct (isIntersecting entry); [| split; [exact Hl | tauto]].
  destruct (decide (target entry = e)) as [-> | Hne].
  - assert (Hv : is_visible (style_of
        (exec (set_style e (with_opacity "1") ;;
               set_style e (with_transform "translateY(0)") ;;
               observer_unobserve e) p) e) = true).
    { unfold style_of. simpl. rewrite lookup_insert_eq. simpl.
      unfold style_of. simpl. rewrite lookup_insert_eq. reflexivity. }
    split; [| intros _; exact Hv].
    right. split; [exact Hv |]. simpl.
    rewrite elem_of_difference, elem_of_singleton. tauto.
  - assert (Hst : style_of
        (exec (set_style (target entry) (with_opacity "1") ;;
               set_style (target entry) (with_transform "translateY(0)") ;;
               observer_unobserve (target entry)) p) e = style_of p e).
    { unfold style_of. simpl. rewrite !lookup_insert_ne by exact Hne. reflexivity. }
    rewrite Hst. split; [| tauto].
    unfold latched. rewrite Hst. simpl.
    rewrite elem_of_difference, elem_of_singleton.
    destruct Hl as [[Hh Ho] | [Hv Ho]]; [left | right]; split; try assumption.
    + split; [exact Ho | congruence].
    + tauto.
Qed.

Lemma observer_callback_latch (entries : list Entry) (e : node) (p : Page) :
  latched e p ->
  completion (observer_callback entries) p = Normal tt /\
  latched e (exec (observer_callback entries) p) /\
  (is_visible (style_of p e) = true ->
   is_visible (style_of (exec (observer_callback entries) p) e) = true).
Proof.
  unfold observer_callback, exec at 1 2, completion.
  rewrite (forEach_total entries _ p reveal_entry_total). simpl.
  intros Hl. split; [reflexivity |].
  revert p Hl. induction entries as [| entry entries IH]; intros p Hl; [tauto |].
  simpl. destruct (reveal_entry_latch entry e p Hl) as [Hl1 Hv1].
  destruct (IH _ Hl1) as [Hl2 Hv2]. split; [exact Hl2 | tauto].
Qed.

(** The body of the set-up loop, on one element. *)
Lemma reveal_setup_effect (el e : node) (p : Page) :
  let q := exec
    (set_style el (with_opacity "0") ;;
     set_style el (with_transform "translateY(20px)") ;;
     set_style el (with_transition "opacity 600ms ease-out, transform 600ms ease-out") ;;
     observer_observe el) p in
  (el = e -> is_hidden (style_of q e) = true /\ e ∈ observed q) /\
  (el <> e -> style_of q e = style_of p e /\ (e ∈ observed p -> e ∈ observed q)).
Proof.
  intros q. subst q. split.
  - intros ->. split.
    + unfold style_of. simpl. rewrite lookup_insert_eq. simpl.
      unfold style_of. simpl. rewrite lookup_insert_eq. simpl.
      unfold style_of. simpl. rewrite lookup_insert_eq. reflexivity.
    + simpl. apply elem_of_union_l, elem_of_singleton. reflexivity.
  - intros Hne. split.
    + unfold style_of. simpl. rewrite !lookup_insert_ne by exact Hne. reflexivity.
    + simpl. intros Ho. apply elem_of_union_r. exact Ho.
Qed.

(** A set-up loop leaves hidden and observed every element it visits. *)
Lemma reveal_setup_fold (g : Page -> node -> Page) (e : node) :
  (forall el q,
     (el = e -> is_hidden (style_of (g q el) e) = true /\ e ∈ observed (g q el)) /\
     (el <> e -> style_of (g q el) e = style_of q e /\
                 (e ∈ observed q -> e ∈ observed (g q el)))) ->
  forall els q,
    e ∈ els \/ (is_hidden (style_of q e) = true /\ e ∈ observed q) ->
    is_hidden (style_of (fold_left g els q) e) = true /\
    e ∈ observed (fold_left g els q).
Proof.
  intros Hg els. induction els as [| el els IH]; intros q Hq.
  - destruct Hq as [Hin | Hq]; [| exact Hq].
    apply elem_of_nil in Hin. contradiction.
  - cbn [fold_left]. apply IH. destruct (Hg el q) as [Heq Hne].
    destruct (decide (el = e)) as [Hel | Hel]; [right; exact (Heq Hel) |].
    destruct (Hne Hel) as [Hst Hob].
    destruct Hq as [Hin | [Hh Ho]].
    + left. apply elem_of_cons in Hin as [-> | Hin]; [contradiction | exact Hin].
    + right. split; [rewrite Hst; exact Hh | exact (Hob Ho)].
Qed.

(** After [initScrollReveal] every reveal-eligible element is hidden and
    observed. *)
Lemma initScrollReveal_hides (p : Page) (e : node) :
  e ∈ revealElements p ->
  completion initScrollReveal p = Normal tt /\
  is_hidden (style_of (exec initScrollReveal p) e) = true /\
  e ∈ observed (exec initScrollReveal p).
Proof.
  unfold initScrollReveal, exec, completion, bind, gets.
  rewrite forEach_total by reflexivity. cbn [fst snd].
  intros He. split; [reflexivity |].
  apply reveal_setup_fold; [| left; exact He].
  intros el q. exact (reveal_setup_effect el e q).
Qed.

(** Along any run of notifications from a latched state: the latch
    holds throughout, visibility once reached is kept, and the element
    becomes visible at most once. *)
Lemma reveal_trace_latch (ns : list (list Entry)) (e : node) (p : Page) :
  latched e p ->
  (forall i pi, reveal_trace ns p !! i = Some pi -> latched e pi) /\
  (is_visible (style_of p e) = true ->
   forall i pi, reveal_trace ns p !! i = Some pi -> is_visible (style_of pi e) = true) /\
  (is_visible (style_of p e) = true -> reveal_count e (reveal_trace ns p) = 0%nat) /\
  (reveal_count e (reveal_trace ns p) <= 1)%nat.
Proof.
  revert p. induction ns as [| entries ns IH]; intros p Hl.
  - simpl. repeat split.
    + intros [| i] pi Hi; [injection Hi as <-; exact Hl | discriminate].
    + intros Hv [| i] pi Hi; [injection Hi as <-; exact Hv | discriminate].
    + lia.
  - destruct (observer_callback_latch entries e p Hl) as (_ & Hl1 & Hv1).
    destruct (IH _ Hl1) as (IHl & IHv & IH0 & IH1).
    assert (Hcount : reveal_count e (reveal_trace (entries :: ns) p)
              = ((if negb (is_visible (style_of p e))
                     && is_visible (style_of (exec (observer_callback entries) p) e)
                  then 1 else 0)
                 + reveal_count e (reveal_trace ns (exec (observer_callback entries) p)))%nat).
    { simpl. destruct ns; reflexivity. }
    repeat split.
    + intros [| i] pi Hi; [injection Hi as <-; exact Hl |].
      apply (IHl i). exact Hi.
    + intros Hv [| i] pi Hi; [injection Hi as <-; exact Hv |].
      apply (IHv (Hv1 Hv) i). exact Hi.
    + intros Hv. rewrite Hcount, Hv. simpl. apply IH0, Hv1, Hv.
    + rewrite Hcount.
      destruct (is_visible (style_of p e)) eqn:Ev; simpl.
      * rewrite IH0 by (apply Hv1; reflexivity). lia.
      * destruct (is_visible (style_of (exec (observer_callback entries) p) e)) eqn:Ev1.
        -- rewrite IH0 by reflexivity. lia.
        -- exact IH1.
Qed.

Lemma reveal_trace_suffix (ns : list (list Entry)) (p : Page) (i : nat) (pi : Page) :
  reveal_trace ns p !! i = Some pi ->
  forall j pj, (i <= j)%nat -> reveal_trace ns p !! j = Some pj ->
    exists ns', reveal_trace ns' pi !! (j - i)%nat = Some pj.
Proof.
  revert p i. induction ns as [| entries ns IH]; intros p i Hi j pj Hij Hj.
  - destruct i as [| i]; [| discriminate]. destruct j as [| j]; [| discriminate].
    injection Hi as <-. exists []. exact Hj.
  - destruct i as [| i].
    + injection Hi as <-. exists (entries :: ns). rewrite Nat.sub_0_r. exact Hj.
    + destruct j as [| j]; [lia |].
      simpl in Hi, Hj. apply (IH _ i Hi j pj); [lia | exact Hj].
Qed.

(** C4: once [initScrollReveal] has run, over any sequence of
    intersection notifications a reveal-eligible element starts hidden
    and observed, becomes visible at most once, stays visible (and not
    hidden) from then on, and is no longer observed once it is visible. *)
Theorem reveal_is_one_way_latch (p : Page) (e : node) (ns : list (list Entry)) :
  e ∈ revealElements p ->
  let p0 := exec initScrollReveal p in
  let tr := reveal_trace ns p0 in
  (is_hidden (style_of p0 e) = true /\ e ∈ observed p0) /\
  (reveal_count e tr <= 1)%nat /\
  (forall i j pi pj, (i <= j)%nat -> tr !! i = Some pi -> tr !! j = Some pj ->
     is_visible (style_of pi e) = true ->
     is_visible (style_of pj e) = true /\
     is_hidden (style_of pj e) = false /\
     e ∉ observed pj) /\
  (forall i pi, tr !! i = Some pi -> latched e pi).
Proof.
  intros He p0 tr.
  destruct (initScrollReveal_hides p e He) as (_ & Hh & Ho).
  fold p0 in Hh, Ho.
  assert (Hl0 : latched e p0) by (left; split; assumption).
  destruct (reveal_trace_latch ns e p0 Hl0) as (Hl & _ & _ & Hc).
  fold tr in Hl, Hc.
  split; [split; assumption |]. split; [exact Hc |]. split; [| exact Hl].
  intros i j pi pj Hij Hi Hj Hv.
  destruct (reveal_trace_suffix ns p0 i pi Hi j pj Hij Hj) as [ns' Hj'].
  destruct (reveal_trace_latch ns' e pi (Hl i pi Hi)) as (Hl' & Hv' & _ & _).
  assert (Hvj : is_visible (style_of pj e) = true) by (apply (Hv' Hv _ _ Hj')).
  split; [exact Hvj |].
  destruct (Hl' _ _ Hj') as [[Hhid _] | [_ Hno]].
  - apply hidden_not_visible in Hhid. congruence.
  - split; [| exact Hno].
    destruct (is_hidden (style_of pj e)) eqn:Eh; [| reflexivity].
    apply hidden_not_visible in Eh. congruence.
Qed.

Lemma reveal_is_one_way_latch_witness :
  let ns := [[{| target := 7%positive; isIntersecting := true |}];
             [{| target := 7%positive; isIntersecting := false |};
              {| target := 8%positive; isIntersecting := true |}]] in
  7%positive ∈ revealElements sample_page /\
  (reveal_count 7%positive (reveal_trace ns (exec initScrollReveal sample_page)) <= 1)%nat.
Proof.
  cbv zeta.
  assert (He : 7%positive ∈ revealElements sample_page) by (simpl; left).
  split; [exact He |].
  apply (reveal_is_one_way_latch sample_page 7%positive _ He).
Defined.

Example reveal_sample_trace :
  let ns := [[{| target := 7%positive; isIntersecting := true |}];
             [{| target := 7%positive; isIntersecting := false |};
              {| target := 8%positive; isIntersecting := true |}]] in
  (fun q => (is_visible (style_of q 7%positive), is_visible (style_of q 8%positive)))
    <$> reveal_trace ns (exec initScrollReveal sample_page)
  = [(false, false); (true, false); (true, true)].
Proof. vm_compute. reflexivity. Qed.

(** ** Storage *)

Create HintDb storage.

Lemma keeps_storage_ret {A} (a : A) : keeps_storage (ret a).
Proof. intros p. reflexivity. Qed.

Lemma keeps_storage_throw {A} (e : JsError) : keeps_storage (@throw A e).
Proof. intros p. reflexivity. Qed.

Lemma keeps_storage_gets {A} (f : Page -> A) : keeps_storage (gets f).
Proof. intros p. reflexivity. Qed.

Lemma keeps_storage_modify (f : Page -> Page) :
  (forall p, localStorage (f p) = localStorage p) -> keeps_storage (modify f).
Proof. intros Hf p. apply Hf. Qed.

Lemma keeps_storage_bind {A B} (c : Js A) (k : A -> Js B) :
  keeps_storage c -> (forall a, keeps_storage (k a)) -> keeps_storage (bind c k).
Proof.
  intros Hc Hk p. specialize (Hc p). unfold exec, bind in *.
  destruct (c p) as [[a | e] q]; simpl in *.
  - rewrite <- Hc. apply (Hk a q).
  - exact Hc.
Qed.

Lemma keeps_storage_forEach {A} (l : list A) (f : A -> Js unit) :
  (forall x, keeps_storage (f x)) -> keeps_storage (forEach l f).
Proof.
  intros Hf. induction l as [| x l IH]; simpl.
  - apply keeps_storage_ret.
  - apply keeps_storage_bind; [apply Hf | intros _; exact IH].
Qed.

Lemma keeps_storage_set_textContent (g : string) :
  keeps_storage (themeToggle_set_textContent g).
Proof.
  intros p. unfold exec, themeToggle_set_textContent.
  destruct (themeToggle p); reflexivity.
Qed.

Lemma keeps_storage_toggle_listener (l : Listener) :
  keeps_storage (themeToggle_addEventListener l).
Proof.
  intros p. unfold exec, themeToggle_addEventListener.
  destruct (themeToggle p); reflexivity.
Qed.

Lemma keeps_storage_navMenu_contains (c : string) :
  keeps_storage (navMenu_classList_contains c).
Proof.
  intros p. unfold exec, navMenu_classList_contains.
  destruct (navMenu p); reflexivity.
Qed.

Lemma keeps_storage_navMenu_remove (c : string) :
  keeps_storage (navMenu_classList_remove c).
Proof.
  intros p. unfold exec, navMenu_classList_remove.
  destruct (navMenu p); reflexivity.
Qed.

Lemma keeps_storage_querySelector qs (sel : string) :
  keeps_storage (querySelector qs sel).
Proof. intros p. reflexivity. Qed.

#[local] Hint Resolve keeps_storage_ret keeps_storage_throw keeps_storage_gets
  keeps_storage_set_textContent keeps_storage_toggle_listener
  keeps_storage_navMenu_contains keeps_storage_navMenu_remove
  keeps_storage_querySelector : storage.

(** Splits a computation along its binds, loops and branches, and closes
    the leaves that do not touch storage. *)
Ltac storage_frame :=
  repeat first
    [ apply keeps_storage_bind; [| intro]
    | apply keeps_storage_forEach; intro
    | apply keeps_storage_modify; intro; reflexivity
    | solve [auto with storage]
    | match goal with
      | |- keeps_storage (if ?b then _ else _) => destruct b
      | |- keeps_storage (match ?x with _ => _ end) => destruct x
      | |- keeps_storage (let '(_, _) := ?x in _) => destruct x
      end ].

Lemma keeps_storage_applyTheme (theme : string) : keeps_storage (applyTheme theme).
Proof.
  unfold applyTheme, body_classList_add, body_classList_remove. storage_frame.
Qed.

#[local] Hint Resolve keeps_storage_applyTheme : storage.

Lemma keeps_storage_initThemeToggle : keeps_storage initThemeToggle.
Proof. unfold initThemeToggle, localStorage_getItem. storage_frame. Qed.

Lemma keeps_storage_initScrollReveal : keeps_storage initScrollReveal.
Proof. unfold initScrollReveal, set_style, observer_observe. storage_frame. Qed.

Lemma keeps_storage_observer_callback entries :
  keeps_storage (observer_callback entries).
Proof. unfold observer_callback, set_style, observer_unobserve. storage_frame. Qed.

Lemma keeps_storage_window_scroll : keeps_storage window_scroll.
Proof. unfold window_scroll. storage_frame. Qed.

Lemma keeps_storage_initProjectCardInteractions :
  keeps_storage initProjectCardInteractions.
Proof. unfold initProjectCardInteractions, addEventListener. storage_frame. Qed.

Lemma keeps_storage_navLink_click qs link : keeps_storage (navLink_click qs link).
Proof.
  unfold navLink_click, preventDefault, window_scrollTo. storage_frame.
Qed.

Lemma keeps_storage_domContentLoaded : keeps_storage domContentLoaded.
Proof.
  unfold domContentLoaded, console_log, initActiveNavTracking, addActiveNavStyles,
    addEventListener.
  pose proof keeps_storage_initThemeToggle.
  pose proof keeps_storage_initScrollReveal.
  pose proof keeps_storage_initProjectCardInteractions.
  storage_frame; assumption.
Qed.

Lemma keeps_storage_script_toplevel : keeps_storage script_toplevel.
Proof. unfold script_toplevel, addEventListener. storage_frame. Qed.

(** Every listener but the toggle's click leaves storage alone. *)
Lemma keeps_storage_handler qs (l : Listener) :
  l <> ThemeToggleClick -> keeps_storage (handler qs l).
Proof.
  intros Hl. destruct l; simpl; try contradiction.
  - apply keeps_storage_domContentLoaded.
  - pose proof (keeps_storage_navLink_click qs). storage_frame.
  - apply keeps_storage_window_scroll.
  - unfold card_mouseenter, set_style. storage_frame.
  - unfold card_mouseleave, set_style. storage_frame.
  - unfold projectLink_click, console_log. storage_frame.
Qed.

(** The toggle's click writes one of the two theme strings under the
    theme key, or faults before writing when there is no button. *)
Lemma themeToggle_click_write (p : Page) :
  localStorage (exec themeToggle_click p) = localStorage p \/
  exists v, (v = "light" \/ v = "dark") /\
    localStorage (exec themeToggle_click p) = <["theme" := v]> (localStorage p).
Proof.
  destruct (themeToggle p) as [g |] eqn:Eg.
  - right. exists (theme_of (negb (dark_mode p))). split.
    + destruct (dark_mode p); simpl; tauto.
    + apply (themeToggle_click_storage p g Eg).
  - left. unfold themeToggle_click, body_classList_contains, exec, bind, gets.
    pose proof (applyTheme_null (if classList_contains "dark-mode" (body_classList p)
                                 then "light" else "dark") p Eg) as Hnull.
    pose proof (keeps_storage_applyTheme
                  (if classList_contains "dark-mode" (body_classList p)
                   then "light" else "dark") p) as Hkeep.
    unfold completion, exec in Hnull, Hkeep.
    destruct (applyTheme _ p) as [[[] | e] q]; simpl in *; [discriminate | exact Hkeep].
Qed.

Lemma theme_recognized_insert (p p' : Page) (v : string) :
  v = "light" \/ v = "dark" ->
  localStorage p' = <["theme" := v]> (localStorage p) ->
  theme_recognized p' = true.
Proof.
  intros Hv Hs. unfold theme_recognized, stored_theme.
  rewrite Hs, lookup_insert_eq. destruct Hv as [-> | ->]; reflexivity.
Qed.

Lemma theme_recognized_same (p p' : Page) :
  localStorage p' = localStorage p -> theme_recognized p' = theme_recognized p.
Proof. intros Hs. unfold theme_recognized, stored_theme. rewrite Hs. reflexivity. Qed.

Section Storage.

Variable qs : Page -> string -> Completion (option Element).

Lemma step_write (op : Operation) (p : Page) :
  localStorage (exec (step qs op) p) = localStorage p \/
  (op = Fire ThemeToggleClick /\
   exists v, (v = "light" \/ v = "dark") /\
     localStorage (exec (step qs op) p) = <["theme" := v]> (localStorage p)).
Proof.
  destruct op as [l | entries].
  - destruct (decide (l = ThemeToggleClick)) as [-> | Hl].
    + unfold step, exec, bind, gets, modify.
      destruct (bool_decide (ThemeToggleClick ∈ listeners p)); [| left; reflexivity].
      cbn [handler].
      destruct (themeToggle_click_write (set_defaultPrevented false p)) as [Hk | Hw].
      * left. exact Hk.
      * right. split; [reflexivity | exact Hw].
    + left. revert p. change (keeps_storage (step qs (Fire l))).
      pose proof (keeps_storage_handler qs l Hl). unfold step. storage_frame.
  - left. revert p. change (keeps_storage (step qs (Notify entries))).
    unfold step. pose proof keeps_storage_observer_callback. storage_frame.
Qed.

Lemma step_keeps_recognized (op : Operation) (p : Page) :
  theme_recognized p = true -> theme_recognized (exec (step qs op) p) = true.
Proof.
  intros Hr. destruct (step_write op p) as [Hk | (_ & v & Hv & Hw)].
  - rewrite (theme_recognized_same _ _ Hk). exact Hr.
  - exact (theme_recognized_insert _ _ v Hv Hw).
Qed.

Lemma startup_keeps_storage : keeps_storage (startup qs).
Proof.
  unfold startup, step.
  pose proof keeps_storage_script_toplevel.
  pose proof keeps_storage_domContentLoaded.
  storage_frame; cbn [handler]; assumption.
Qed.

(** C8: every write to storage puts 'light' or 'dark' under the theme
    key, and only the toggle's click writes; initialization never
    writes; so a stored value that is absent or one of the two strings
    stays so after every operation, and after any run of operations. *)
Theorem storage_holds_only_theme_strings (op : Operation) (p : Page) :
  let p' := exec (step qs op) p in
  (localStorage p' = localStorage p \/
   (op = Fire ThemeToggleClick /\
    exists v, (v = "light" \/ v = "dark") /\
      localStorage p' = <["theme" := v]> (localStorage p))) /\
  localStorage (exec initThemeToggle p) = localStorage p /\
  localStorage (exec (startup qs) p) = localStorage p /\
  (theme_recognized p = true -> theme_recognized p' = true) /\
  (forall ops, theme_recognized p = true -> theme_recognized (run qs ops p) = true).
Proof.
  intros p'. split; [apply step_write |].
  split; [apply keeps_storage_initThemeToggle |].
  split; [apply startup_keeps_storage |].
  split; [apply step_keeps_recognized |].
  intros ops. revert p p'. induction ops as [| o ops IH]; intros p p' Hr; [exact Hr |].
  simpl. apply IH. apply step_keeps_recognized. exact Hr.
Qed.

End Storage.

Lemma storage_holds_only_theme_strings_witness :
  let p := exec (startup sample_querySelector) sample_page in
  theme_recognized p = true /\
  theme_recognized (run sample_querySelector
                      [Fire ThemeToggleClick; Fire WindowScroll; Fire ThemeToggleClick] p)
  = true.
Proof.
  cbv zeta.
  assert (Hr : theme_recognized (exec (startup sample_querySelector) sample_page) = true)
    by (vm_compute; reflexivity).
  split; [exact Hr |].
  apply (storage_holds_only_theme_strings sample_querySelector (Fire WindowScroll)).
  exact Hr.
Defined.

Example storage_after_sample_run :
  stored_theme (run sample_querySelector
                  [Fire ThemeToggleClick; Fire WindowScroll; Fire ThemeToggleClick;
                   Fire ThemeToggleClick]
                  (exec (startup sample_querySelector) sample_page))
  = Some "dark".
Proof. vm_compute. reflexivity. Qed.

(** ** Presence of elements *)

Lemma triple_ret {A} (P : Page -> Prop) (a : A) (Q : A -> Page -> Prop) :
  (forall p, P p -> Q a p) -> triple P (ret a) Q.
Proof. intros H p Hp. exists a, p. split; [reflexivity | apply H, Hp]. Qed.

Lemma triple_gets {A} (P : Page -> Prop) (f : Page -> A) (Q : A -> Page -> Prop) :
  (forall p, P p -> Q (f p) p) -> triple P (gets f) Q.
Proof. intros H p Hp. exists (f p), p. split; [reflexivity | apply H, Hp]. Qed.

Lemma triple_modify (P : Page -> Prop) (f : Page -> Page) (Q : unit -> Page -> Prop) :
  (forall p, P p -> Q tt (f p)) -> triple P (modify f) Q.
Proof. intros H p Hp. exists tt, (f p). split; [reflexivity | apply H, Hp]. Qed.

Lemma triple_bind {A B} (P : Page -> Prop) (R : A -> Page -> Prop)
    (Q : B -> Page -> Prop) (c : Js A) (k : A -> Js B) :
  triple P c R -> (forall a, triple (R a) (k a) Q) -> triple P (bind c k) Q.
Proof.
  intros Hc Hk p Hp. destruct (Hc p Hp) as (a & q & Hrun & Hr).
  destruct (Hk a q Hr) as (b & q' & Hrun' & Hq).
  exists b, q'. split; [| exact Hq]. unfold bind. rewrite Hrun. exact Hrun'.
Qed.

Lemma triple_forEach {A} (I : Page -> Prop) (l : list A) (f : A -> Js unit) :
  (forall x, x ∈ l -> triple I (f x) (fun _ => I)) ->
  triple I (forEach l f) (fun _ => I).
Proof.
  induction l as [| x l IH]; intros Hf.
  - apply triple_ret. tauto.
  - simpl. apply (triple_bind _ (fun _ => I)).
    + apply Hf. left.
    + intros _. apply IH. intros y Hy. apply Hf. right. exact Hy.
Qed.

Lemma triple_faults {A} (P : Page -> Prop) (c : Js A) (Q : A -> Page -> Prop) (p : Page) :
  triple P c Q -> P p ->
  faults c p = false /\ exists a, completion c p = Normal a /\ Q a (exec c p).
Proof.
  intros Hc Hp. destruct (Hc p Hp) as (a & q & Hrun & Hq).
  unfold faults, completion, exec. rewrite Hrun. simpl. eauto.
Qed.

Lemma has_toggle_Some (p : Page) : has_toggle p -> exists g, themeToggle p = Some g.
Proof.
  unfold has_toggle. destruct (themeToggle p) as [g |]; [eauto | contradiction].
Qed.

(** With the toggle button present, [initThemeToggle] completes and
    keeps the button. *)
Lemma initThemeToggle_with_toggle :
  triple has_toggle initThemeToggle (fun _ => has_toggle).
Proof.
  intros p Hp. destruct (has_toggle_Some p Hp) as [g Hg].
  eexists tt, _. split; [apply (initThemeToggle_run p g Hg) |].
  cbv zeta. unfold has_toggle, exec. rewrite (applyTheme_run _ p g Hg).
  destruct (String.eqb _ "dark"); discriminate.
Qed.

(** An initializer made of style, observer, listener, console and head
    updates runs from any page and keeps whatever [I] those updates keep. *)
Ltac triple_frame I :=
  repeat first
    [ apply (triple_bind I (fun _ => I)); [| intro]
    | apply (triple_forEach I); intros ? ?
    | apply triple_modify; intros ? ?; assumption
    | apply triple_gets; intros ? ?; assumption
    | apply triple_ret; intros ? ?; assumption
    | match goal with
      | |- triple _ (if ?b then _ else _) _ => destruct b
      | |- triple _ (let '(_, _) := ?x in _) _ => destruct x
      end ].

Lemma initScrollReveal_with_toggle :
  triple has_toggle initScrollReveal (fun _ => has_toggle).
Proof.
  unfold initScrollReveal, set_style, observer_observe. triple_frame has_toggle.
Qed.

Lemma initProjectCardInteractions_with_toggle :
  triple has_toggle initProjectCardInteractions (fun _ => has_toggle).
Proof.
  unfold initProjectCardInteractions, addEventListener. triple_frame has_toggle.
Qed.

Lemma domContentLoaded_with_toggle :
  triple has_toggle domContentLoaded (fun _ => has_toggle).
Proof.
  unfold domContentLoaded.
  apply (triple_bind has_toggle (fun _ => has_toggle));
    [unfold console_log; triple_frame has_toggle | intros _].
  apply (triple_bind has_toggle (fun _ => has_toggle));
    [apply initThemeToggle_with_toggle | intros _].
  apply (triple_bind has_toggle (fun _ => has_toggle));
    [apply initScrollReveal_with_toggle | intros _].
  apply (triple_bind has_toggle (fun _ => has_toggle));
    [unfold initActiveNavTracking, addEventListener; triple_frame has_toggle | intros _].
  apply (triple_bind has_toggle (fun _ => has_toggle));
    [unfold addActiveNavStyles; triple_frame has_toggle | intros _].
  apply initProjectCardInteractions_with_toggle.
Qed.

Lemma completion_bind_throw {A B} (c : Js A) (k : A -> Js B) (p : Page) (e : JsError) :
  completion c p = Throw e -> completion (bind c k) p = Throw e.
Proof.
  unfold completion, bind. destruct (c p) as [[a | e'] q]; simpl; intros H;
    [discriminate | injection H as ->; reflexivity].
Qed.

Lemma initThemeToggle_null (p : Page) :
  themeToggle p = None -> completion initThemeToggle p = Throw TypeError.
Proof.
  intros Hg. unfold initThemeToggle, localStorage_getItem.
  unfold bind at 1. unfold gets. change (completion ?c p) with (fst (c p)).
  apply (completion_bind_throw (applyTheme _) _ p), applyTheme_null, Hg.
Qed.

(** The top-level statements register the DOMContentLoaded listener and
    leave the toggle button as it is. *)
Lemma script_toplevel_registers (p : Page) :
  exists q, script_toplevel p = (Normal tt, q) /\
    DOMContentLoaded ∈ listeners q /\ themeToggle q = themeToggle p.
Proof.
  set (I := fun q : Page => themeToggle q = themeToggle p).
  assert (Ht : triple I script_toplevel
                 (fun _ q => DOMContentLoaded ∈ listeners q /\ themeToggle q = themeToggle p)).
  { unfold script_toplevel, addEventListener.
    apply (triple_bind I (fun _ => I)); [triple_frame I | intros links].
    apply (triple_bind I (fun _ => I)); [triple_frame I | intros _].
    apply triple_modify. intros q Hq. split; [| exact Hq].
    simpl. apply elem_of_app. right. left. }
  destruct (Ht p eq_refl) as ([] & q & Hrun & Hq). exists q. split; assumption.
Qed.

Section Presence.

Variable qs : Page -> string -> Completion (option Element).

Lemma startup_with_toggle (p : Page) :
  has_toggle p -> completion (startup qs) p = Normal tt.
Proof.
  intros Hp. destruct (script_toplevel_registers p) as (q & Hrun & Hreg & Hg).
  unfold startup, completion, bind. rewrite Hrun.
  unfold step, bind, gets, modify.
  rewrite (bool_decide_eq_true_2 _ Hreg). cbn [handler].
  assert (Hq : has_toggle (set_defaultPrevented false q))
    by (unfold has_toggle; simpl; rewrite Hg; exact Hp).
  destruct (domContentLoaded_with_toggle _ Hq) as ([] & q' & Hrun' & _).
  rewrite Hrun'. reflexivity.
Qed.

Lemma startup_without_toggle (p : Page) :
  themeToggle p = None -> completion (startup qs) p = Throw TypeError.
Proof.
  intros Hp. destruct (script_toplevel_registers p) as (q & Hrun & Hreg & Hg).
  unfold startup, completion, bind. rewrite Hrun.
  unfold step, bind, gets, modify.
  rewrite (bool_decide_eq_true_2 _ Hreg). cbn [handler].
  assert (Hq : themeToggle (set_defaultPrevented false q) = None)
    by (simpl; rewrite Hg; exact Hp).
  unfold domContentLoaded, console_log.
  unfold bind at 1. unfold modify.
  change (fst (?c ?x)) with (completion c x).
  apply completion_bind_throw, initThemeToggle_null. exact Hq.
Qed.

Lemma card_hover_never_faults (c : nat) (p : Page) :
  faults (handler qs (CardMouseEnter c)) p = false /\
  faults (handler qs (CardMouseLeave c)) p = false.
Proof.
  unfold faults, completion, handler, bind, gets.
  split; destruct (projectCards p !! c); reflexivity.
Qed.

End Presence.

(** A card's link gets a click listener only when the card has a link. *)
Lemma initProjectCardInteractions_guards_link (p : Page) :
  faults initProjectCardInteractions p = false /\
  link_listeners_guarded p (exec initProjectCardInteractions p).
Proof.
  set (I := link_listeners_guarded p).
  assert (Ht : triple I (forEach (imap pair (projectCards p)) (fun '(c, card) =>
      addEventListener (CardMouseEnter c) ;;
      addEventListener (CardMouseLeave c) ;;
      if projectLink card then addEventListener (ProjectLinkClick c) else ret tt))
      (fun _ => I)).
  { apply triple_forEach. intros [c card] Hx.
    apply list_elem_of_lookup in Hx as [i Hi].
    rewrite list_lookup_imap in Hi.
    destruct (projectCards p !! i) as [card' |] eqn:Ec; [| discriminate].
    simpl in Hi. injection Hi as <- <-.
    unfold addEventListener.
    assert (Hother : forall l : Listener, (forall k, l <> ProjectLinkClick k) ->
              triple I (modify (fun q => set_listeners (listeners q ++ [l]) q)) (fun _ => I)).
    { intros l Hl. apply triple_modify. intros q Hq k Hk. simpl in Hk.
      apply elem_of_app in Hk as [Hk | Hk]; [apply Hq, Hk |].
      apply list_elem_of_singleton in Hk. exfalso. apply (Hl k). congruence. }
    apply (triple_bind I (fun _ => I)); [apply Hother; discriminate | intros _].
    apply (triple_bind I (fun _ => I)); [apply Hother; discriminate | intros _].
    destruct (projectLink card') eqn:El; [| apply triple_ret; tauto].
    apply triple_modify. intros q Hq k Hk. simpl in Hk.
    apply elem_of_app in Hk as [Hk | Hk]; [apply Hq, Hk |].
    apply list_elem_of_singleton in Hk. injection Hk as ->.
    right. exists card'. split; assumption. }
  assert (H0 : I p) by (intros c Hc; left; exact Hc).
  destruct (Ht p H0) as ([] & q & Hrun & Hq).
  change (forEach _ _ p) with (initProjectCardInteractions p) in Hrun.
  unfold faults, completion, exec. rewrite Hrun. split; [reflexivity | exact Hq].
Qed.

(** C7, as stated, fails for the navigation links: a page without any
    starts up without a fault. *)
Lemma startup_without_nav_links_does_not_fault :
  navLinks bare_page = [] /\
  completion (startup sample_querySelector) bare_page = Normal tt /\
  faults (startup sample_querySelector) bare_page <> true.
Proof.
  split; [reflexivity |]. split; [vm_compute; reflexivity |].
  vm_compute. discriminate.
Qed.

(** The two uses that no presence check covers. *)
Example nav_click_without_menu :
  let p := set_navMenu None sample_page in
  completion (navLink_click sample_querySelector (link_to "#home")) p = Throw TypeError /\
  scroll_requests (exec (navLink_click sample_querySelector (link_to "#home")) p) = [-60].
Proof. split; reflexivity. Qed.

Example project_link_click_without_title :
  completion
    (projectLink_click {| card_node := 7%positive; projectLink := true; projectTitle := None |})
    sample_page
  = Throw TypeError.
Proof. reflexivity. Qed.

Example nav_click_on_lone_hash :
  completion (navLink_click sample_querySelector (link_to "#")) sample_page
  = Throw SyntaxError.
Proof. reflexivity. Qed.

Example startup_sample_listeners :
  listeners (exec (startup sample_querySelector) sample_page)
  = [NavLinkClick 0; NavLinkClick 1; NavLinkClick 2; DOMContentLoaded;
     ThemeToggleClick; WindowScroll;
     CardMouseEnter 0; CardMouseLeave 0; ProjectLinkClick 0].
Proof. vm_compute. reflexivity. Qed.

(** * Further properties of the script *)

(** ** Class lists, continued *)

Lemma classList_remove_idem c l :
  classList_remove c (classList_remove c l) = classList_remove c l.
Proof.
  apply classList_remove_absent, classList_contains_remove.
Qed.

Lemma classList_add_idem c l :
  classList_add c (classList_add c l) = classList_add c l.
Proof.
  unfold classList_add at 1. rewrite classList_contains_add. reflexivity.
Qed.

Lemma classList_remove_add c l :
  classList_remove c (classList_add c l) = classList_remove c l.
Proof.
  unfold classList_add. destruct (classList_contains c l); [reflexivity |].
  unfold classList_remove. rewrite filter_app, filter_cons.
  destruct (decide (c <> c)) as [Hne | _]; [congruence |].
  rewrite filter_nil. apply app_nil_r.
Qed.

Lemma classList_add_remove c l :
  classList_add c (classList_remove c l) = (classList_remove c l ++ [c])%list.
Proof.
  unfold classList_add. rewrite classList_contains_remove. reflexivity.
Qed.

Lemma classList_add_other c c' l :
  c' <> c -> classList_contains c' (classList_add c l) = classList_contains c' l.
Proof.
  intros Hne. unfold classList_add. destruct (classList_contains c l); [reflexivity |].
  unfold classList_contains. apply bool_decide_ext.
  rewrite elem_of_app, list_elem_of_singleton. tauto.
Qed.

Lemma classList_remove_other c c' l :
  c' <> c -> classList_contains c' (classList_remove c l) = classList_contains c' l.
Proof.
  intros Hne. unfold classList_contains, classList_remove. apply bool_decide_ext.
  rewrite list_elem_of_filter. tauto.
Qed.

Lemma classList_add_NoDup c l : NoDup l -> NoDup (classList_add c l).
Proof.
  intros Hl. unfold classList_add. destruct (classList_contains c l) eqn:E; [exact Hl |].
  apply classList_contains_false in E. apply NoDup_app. split; [exact Hl |].
  split; [| apply NoDup_singleton].
  intros x Hx Hc. apply list_elem_of_singleton in Hc. congruence.
Qed.

Lemma classList_remove_NoDup c l : NoDup l -> NoDup (classList_remove c l).
Proof. intros Hl. unfold classList_remove. apply NoDup_filter, Hl. Qed.

(** ** Theme, continued *)

Lemma applyTheme_body (theme : string) (p : Page) :
  body_classList (exec (applyTheme theme) p)
  = if String.eqb theme "dark"
    then classList_add "dark-mode" (body_classList p)
    else classList_remove "dark-mode" (body_classList p).
Proof.
  unfold applyTheme, body_classList_add, body_classList_remove,
    themeToggle_set_textContent.
  destruct (String.eqb theme "dark"); js_unfold; simpl;
    destruct (themeToggle p); reflexivity.
Qed.

(** X1: what the visible theme is after initialization is decided by
    the stored value alone: the body is dark exactly when 'dark' is
    stored, the glyph is the sun then and the moon otherwise, nothing is
    written, and the click listener is registered last. *)
Theorem init_is_dark_iff_dark_stored (p : Page) (g : string) :
  themeToggle p = Some g ->
  let p' := exec initThemeToggle p in
  completion initThemeToggle p = Normal tt /\
  (dark_mode p' = true <-> stored_theme p = Some "dark") /\
  themeToggle p' = Some (glyph_of (dark_mode p')) /\
  localStorage p' = localStorage p /\
  listeners p' = (listeners p ++ [ThemeToggleClick])%list.
Proof.
  intros Hg p'.
  assert (Hrun := initThemeToggle_run p g Hg).
  assert (Hdark : String.eqb (js_or (stored_theme p) "light") "dark" = true
                  <-> stored_theme p = Some "dark").
  { destruct (stored_theme p) as [v |]; simpl; [| split; discriminate].
    destruct (String.eqb v "") eqn:Ev.
    - apply String.eqb_eq in Ev. subst v. split; discriminate.
    - rewrite String.eqb_eq. split; congruence. }
  assert (Hmode : dark_mode p' = String.eqb (js_or (stored_theme p) "light") "dark").
  { unfold p', exec. rewrite Hrun. cbv zeta. unfold dark_mode. simpl.
    rewrite applyTheme_body.
    destruct (String.eqb (js_or (stored_theme p) "light") "dark").
    - apply classList_contains_add.
    - apply classList_contains_remove. }
  split; [unfold completion; rewrite Hrun; reflexivity |].
  split; [rewrite Hmode; exact Hdark |].
  split.
  - rewrite Hmode. unfold p', exec. rewrite Hrun. cbv zeta. simpl.
    unfold exec. rewrite (applyTheme_run _ p g Hg).
    destruct (String.eqb (js_or (stored_theme p) "light") "dark"); reflexivity.
  - split.
    + apply keeps_storage_initThemeToggle.
    + unfold p', exec. rewrite Hrun. cbv zeta. simpl.
      unfold exec. rewrite (applyTheme_run _ p g Hg).
      destruct (String.eqb (js_or (stored_theme p) "light") "dark"); reflexivity.
Qed.

Lemma init_is_dark_iff_dark_stored_witness :
  let p := set_localStorage {[ "theme" := "dark" ]} sample_page in
  themeToggle p = Some "" /\
  dark_mode (exec initThemeToggle p) = true /\
  themeToggle (exec initThemeToggle p) = Some sun_glyph.
Proof.
  cbv zeta.
  destruct (init_is_dark_iff_dark_stored
              (set_localStorage {[ "theme" := "dark" ]} sample_page) "" eq_refl)
    as (_ & Hd & Hgl & _).
  assert (Hdark : dark_mode (exec initThemeToggle
            (set_localStorage {[ "theme" := "dark" ]} sample_page)) = true)
    by (apply Hd; reflexivity).
  split; [reflexivity |]. split; [exact Hdark |].
  rewrite Hgl, Hdark. reflexivity.
Defined.

(** X2: a reload re-applies what the last click left: on any page that
    holds the storage a click produced, whatever its body classes and
    glyph, initialization gives the dark-mode class and the glyph that
    the page had after that click. *)
Theorem reload_reapplies_clicked_theme (p q : Page) (g h : string) :
  themeToggle p = Some g ->
  themeToggle q = Some h ->
  localStorage q = localStorage (exec themeToggle_click p) ->
  dark_mode (exec initThemeToggle q) = dark_mode (exec themeToggle_click p) /\
  themeToggle (exec initThemeToggle q) = themeToggle (exec themeToggle_click p) /\
  localStorage (exec initThemeToggle q) = localStorage (exec themeToggle_click p).
Proof.
  intros Hg Hh Hs.
  assert (Hstored : stored_theme q = Some (theme_of (negb (dark_mode p)))).
  { unfold stored_theme. rewrite Hs, (themeToggle_click_storage p g Hg).
    apply lookup_insert_eq. }
  assert (Hrun := initThemeToggle_run q h Hh).
  rewrite (themeToggle_click_dark_mode p g Hg), (themeToggle_click_glyph p g Hg).
  split; [| split].
  - unfold exec at 1. rewrite Hrun. cbv zeta. unfold dark_mode at 1. simpl.
    rewrite applyTheme_body, Hstored.
    destruct (dark_mode p); simpl.
    + apply classList_contains_remove.
    + apply classList_contains_add.
  - unfold exec at 1. rewrite Hrun. cbv zeta. simpl.
    unfold exec. rewrite (applyTheme_run _ q h Hh), Hstored.
    destruct (dark_mode p); reflexivity.
  - rewrite keeps_storage_initThemeToggle. exact Hs.
Qed.

Lemma reload_reapplies_clicked_theme_witness :
  let q := set_localStorage (localStorage (exec themeToggle_click sample_page))
             (set_body_classList ["no-js"] sample_page) in
  themeToggle sample_page = Some "" /\
  themeToggle q = Some "" /\
  localStorage q = localStorage (exec themeToggle_click sample_page) /\
  dark_mode (exec initThemeToggle q) = dark_mode (exec themeToggle_click sample_page).
Proof.
  cbv zeta. split; [reflexivity |]. split; [reflexivity |]. split; [reflexivity |].
  apply (reload_reapplies_clicked_theme sample_page
           (set_localStorage (localStorage (exec themeToggle_click sample_page))
              (set_body_classList ["no-js"] sample_page))
           "" "" eq_refl eq_refl eq_refl).
Defined.

(** The page a click leaves, field by field. *)
Lemma themeToggle_click_page (p : Page) (g : string) :
  themeToggle p = Some g ->
  exec themeToggle_click p
  = set_localStorage (<["theme" := theme_of (negb (dark_mode p))]> (localStorage p))
      (set_themeToggle (Some (glyph_of (negb (dark_mode p))))
         (set_body_classList
            (if dark_mode p
             then classList_remove "dark-mode" (body_classList p)
             else classList_add "dark-mode" (body_classList p)) p)).
Proof.
  intros Hg. unfold exec. rewrite (themeToggle_click_run p g Hg). cbv zeta.
  unfold exec. rewrite (applyTheme_run _ p g Hg).
  unfold localStorage_setItem, modify.
  destruct (dark_mode p); reflexivity.
Qed.

(** Two pages with the same fields are the same page. *)
Lemma page_ext (p q : Page) :
  body_classList p = body_classList q ->
  themeToggle p = themeToggle q ->
  navLinks p = navLinks q ->
  navMenu p = navMenu q ->
  sections p = sections q ->
  pageYOffset p = pageYOffset q ->
  revealElements p = revealElements q ->
  projectCards p = projectCards q ->
  inline_style p = inline_style q ->
  observed p = observed q ->
  localStorage p = localStorage q ->
  listeners p = listeners q ->
  scroll_requests p = scroll_requests q ->
  console p = console q ->
  defaultPrevented p = defaultPrevented q ->
  head_styles p = head_styles q ->
  p = q.
Proof.
  destruct p, q. cbn. intros. subst. reflexivity.
Qed.

(** X3: once a click has happened, two further clicks give back the very
    same page: same body class list, glyph, storage and everything else. *)
Theorem two_clicks_after_a_click_are_identity (p : Page) (g : string) :
  themeToggle p = Some g ->
  let p1 := exec themeToggle_click p in
  completion (themeToggle_click ;; themeToggle_click) p1 = Normal tt /\
  exec (themeToggle_click ;; themeToggle_click) p1 = p1.
Proof.
  intros Hg p1.
  pose proof (themeToggle_click_glyph p g Hg) as Hg1. fold p1 in Hg1.
  destruct (toggle_twice_run p1 _ Hg1) as (Hc & Hp2 & _).
  split; [exact Hc |]. rewrite Hp2.
  pose proof (themeToggle_click_glyph p1 _ Hg1) as Hg2.
  rewrite (themeToggle_click_page _ _ Hg2).
  rewrite (themeToggle_click_dark_mode p1 _ Hg1).
  rewrite (themeToggle_click_page p1 _ Hg1).
  unfold p1. rewrite (themeToggle_click_dark_mode p g Hg).
  rewrite (themeToggle_click_page p g Hg).
  rewrite !negb_involutive.
  unfold dark_mode.
  set (bl := body_classList p). set (ls := localStorage p).
  apply page_ext; try reflexivity.
  - lazy beta iota zeta delta [body_classList set_localStorage set_themeToggle
                                 set_body_classList].
    destruct (classList_contains "dark-mode" bl) eqn:E; cbn [negb].
    + rewrite classList_remove_add, classList_remove_idem. reflexivity.
    + rewrite classList_remove_add.
      rewrite (classList_remove_absent _ _ E). reflexivity.
  - lazy beta iota zeta delta [localStorage set_localStorage set_themeToggle
                                 set_body_classList].
    rewrite !insert_insert_eq. reflexivity.
Qed.

Lemma two_clicks_after_a_click_are_identity_witness :
  themeToggle sample_page = Some "" /\
  exec (themeToggle_click ;; themeToggle_click) (exec themeToggle_click sample_page)
  = exec themeToggle_click sample_page.
Proof.
  split; [reflexivity |].
  apply (two_clicks_after_a_click_are_identity sample_page "" eq_refl).
Defined.

(** X4: applying a theme touches no body class but 'dark-mode': every
    other class is present afterwards exactly when it was before, after
    [applyTheme], after a click and after initialization alike, and a
    class list without repetition stays so. *)
Theorem theme_keeps_other_body_classes (p : Page) (theme c : string) :
  c <> "dark-mode" ->
  classList_contains c (body_classList (exec (applyTheme theme) p))
    = classList_contains c (body_classList p) /\
  classList_contains c (body_classList (exec themeToggle_click p))
    = classList_contains c (body_classList p) /\
  classList_contains c (body_classList (exec initThemeToggle p))
    = classList_contains c (body_classList p) /\
  (NoDup (body_classList p) ->
   NoDup (body_classList (exec (applyTheme theme) p)) /\
   NoDup (body_classList (exec themeToggle_click p)) /\
   NoDup (body_classList (exec initThemeToggle p))).
Proof.
  intros Hc.
  assert (Happly : forall t q,
            classList_contains c (body_classList (exec (applyTheme t) q))
            = classList_contains c (body_classList q)).
  { intros t q. rewrite applyTheme_body. destruct (String.eqb t "dark").
    - apply classList_add_other, Hc.
    - apply classList_remove_other, Hc. }
  assert (Hnd : forall t q, NoDup (body_classList q) ->
                            NoDup (body_classList (exec (applyTheme t) q))).
  { intros t q Hq. rewrite applyTheme_body. destruct (String.eqb t "dark").
    - apply classList_add_NoDup, Hq.
    - apply classList_remove_NoDup, Hq. }
  assert (Hclick : body_classList (exec themeToggle_click p)
                   = body_classList (exec (applyTheme (if dark_mode p then "light" else "dark")) p)).
  { unfold themeToggle_click, body_classList_contains, localStorage_setItem.
    unfold exec, bind, gets, modify. fold (dark_mode p).
    destruct (applyTheme (if dark_mode p then "light" else "dark") p) as [[[] | e] q];
      reflexivity. }
  assert (Hinit : body_classList (exec initThemeToggle p)
                  = body_classList (exec (applyTheme (js_or (stored_theme p) "light")) p)).
  { unfold initThemeToggle, localStorage_getItem, themeToggle_addEventListener.
    unfold exec, bind, gets. fold (stored_theme p).
    destruct (applyTheme (js_or (stored_theme p) "light") p) as [[[] | e] q];
      [| reflexivity].
    simpl. destruct (themeToggle q); reflexivity. }
  rewrite Hclick, Hinit.
  split; [apply Happly |]. split; [apply Happly |]. split; [apply Happly |].
  intros Hp. repeat split; apply Hnd, Hp.
Qed.

Lemma theme_keeps_other_body_classes_witness :
  let p := set_body_classList ["no-js"; "dark-mode"] sample_page in
  "no-js" <> "dark-mode" /\
  classList_contains "no-js" (body_classList (exec themeToggle_click p)) = true.
Proof.
  cbv zeta.
  assert (Hne : "no-js" <> "dark-mode") by discriminate.
  split; [exact Hne |].
  destruct (theme_keeps_other_body_classes
              (set_body_classList ["no-js"; "dark-mode"] sample_page) "dark" "no-js" Hne)
    as (_ & Hclick & _).
  rewrite Hclick. reflexivity.
Defined.

(** ** Navigation click, continued *)

Section NavigationCases.

Variable qs : Page -> string -> Completion (option Element).

(** X5: a click whose target exists leaves exactly this page: default
    prevented, one scroll request appended, and the menu without its
    'active' class; when the page has no menu container the same scroll
    request is made and the listener then ends in a TypeError.  Nothing
    else on the page changes in either case. *)
Theorem navLink_click_closes_menu_or_faults (link : NavLink) (p : Page) (section : Element) :
  lookup_target qs link p = Normal (Some section) ->
  let scrolled :=
    set_scroll_requests (scroll_requests p ++ [offsetTop section - 60])
      (set_defaultPrevented true p) in
  (forall cl, navMenu p = Some cl ->
     navLink_click qs link p
     = (Normal tt, set_navMenu (Some (classList_remove "active" cl)) scrolled)) /\
  (navMenu p = None -> navLink_click qs link p = (Throw TypeError, scrolled)).
Proof.
  unfold lookup_target, navLink_click, querySelector, preventDefault,
    window_scrollTo, navMenu_classList_contains, navMenu_classList_remove.
  js_unfold. simpl. intros Hq. rewrite Hq. simpl. split.
  - intros cl Hcl. rewrite Hcl.
    destruct (classList_contains "active" cl) eqn:Ec; simpl; rewrite ?Hcl; [reflexivity |].
    rewrite (classList_remove_absent _ _ Ec). f_equal.
    destruct p; simpl in *. rewrite Hcl. reflexivity.
  - intros Hnone. rewrite Hnone. reflexivity.
Qed.

(** X6: a click on a link whose href the selector engine rejects ends in
    that fault; the default navigation is already suppressed by then,
    and nothing is scrolled or changed otherwise. *)
Theorem navLink_click_rejected_selector (link : NavLink) (p : Page) (e : JsError) :
  lookup_target qs link p = Throw e ->
  completion (navLink_click qs link) p = Throw e /\
  exec (navLink_click qs link) p = set_defaultPrevented true p /\
  scroll_requests (exec (navLink_click qs link) p) = scroll_requests p.
Proof.
  intros Hq. unfold completion, exec.
  rewrite (navLink_click_bad_selector qs link p e Hq). repeat split.
Qed.

End NavigationCases.

Lemma navLink_click_closes_menu_or_faults_witness :
  let p := set_navMenu (Some ["nav-menu"; "active"]) sample_page in
  lookup_target sample_querySelector (link_to "#about") p = Normal (Some about) /\
  navMenu (exec (navLink_click sample_querySelector (link_to "#about")) p)
  = Some ["nav-menu"].
Proof.
  cbv zeta. split; [reflexivity |].
  destruct (navLink_click_closes_menu_or_faults sample_querySelector (link_to "#about")
              (set_navMenu (Some ["nav-menu"; "active"]) sample_page) about eq_refl)
    as [Hmenu _].
  unfold exec. rewrite (Hmenu _ eq_refl). reflexivity.
Defined.

Lemma navLink_click_rejected_selector_witness :
  lookup_target sample_querySelector (link_to "#") sample_page = Throw SyntaxError /\
  completion (navLink_click sample_querySelector (link_to "#")) sample_page
  = Throw SyntaxError.
Proof.
  split; [reflexivity |].
  apply (navLink_click_rejected_selector sample_querySelector (link_to "#")
           sample_page SyntaxError eq_refl).
Defined.

(** ** Active link, continued *)

Lemma mark_link_idem cur l : mark_link cur (mark_link cur l) = mark_link cur l.
Proof.
  unfold mark_link at 1. rewrite href_mark_link. unfold mark_link.
  destruct (js_strict_eq (href l) ("#" +:+ js_to_string cur)); simpl.
  - rewrite classList_remove_add, classList_remove_idem. reflexivity.
  - rewrite classList_remove_idem. reflexivity.
Qed.

(** X7: the scroll listener is idempotent: a second scroll event at the
    same offset leaves the page exactly as the first one did. *)
Theorem window_scroll_idempotent (p : Page) :
  exec window_scroll (exec window_scroll p) = exec window_scroll p.
Proof.
  unfold exec. rewrite !window_scroll_run. simpl.
  destruct p as [bl tg nl nm se py re pc ist ob ls li sr co dp hs].
  unfold set_navLinks. simpl. f_equal.
  rewrite <- list_fmap_compose. apply list_fmap_ext.
  intros i l _. simpl. apply mark_link_idem.
Qed.

(** X8: the scroll listener adds or removes no class but 'active': every
    link keeps its position, its href and each of its other classes, and
    a class list without repetition stays so. *)
Theorem window_scroll_keeps_other_classes (p : Page) (i : nat) (l : NavLink) :
  navLinks p !! i = Some l ->
  exists l', navLinks (exec window_scroll p) !! i = Some l' /\
    href l' = href l /\
    (forall c, c <> "active" ->
       classList_contains c (link_classList l') = classList_contains c (link_classList l)) /\
    (NoDup (link_classList l) -> NoDup (link_classList l')).
Proof.
  intros Hl. unfold exec. rewrite window_scroll_run. simpl.
  rewrite list_lookup_fmap, Hl. simpl. eexists. split; [reflexivity |].
  split; [apply href_mark_link |].
  unfold mark_link.
  destruct (js_strict_eq (href l) _); simpl; split.
  - intros c Hc. rewrite classList_add_other by exact Hc.
    apply classList_remove_other, Hc.
  - intros Hnd. apply classList_add_NoDup, classList_remove_NoDup, Hnd.
  - intros c Hc. apply classList_remove_other, Hc.
  - intros Hnd. apply classList_remove_NoDup, Hnd.
Qed.

Lemma window_scroll_keeps_other_classes_witness :
  navLinks (scrolled_to 520 sample_page) !! 1%nat = Some (link_to "#about") /\
  exists l', navLinks (exec window_scroll (scrolled_to 520 sample_page)) !! 1%nat = Some l' /\
    classList_contains "nav-link" (link_classList l') = true.
Proof.
  split; [reflexivity |].
  destruct (window_scroll_keeps_other_classes (scrolled_to 520 sample_page) 1
              (link_to "#about") eq_refl) as (l' & Hl' & _ & Hc & _).
  exists l'. split; [exact Hl' |].
  rewrite Hc by discriminate. reflexivity.
Defined.

Lemma last_qualifying_app_qualifying (y : Q) (l1 l2 : list Element) (s : Element) :
  qualifies y s ->
  last_qualifying y (l1 ++ s :: l2) = last_qualifying y (s :: l2) /\
  is_Some (last_qualifying y (s :: l2)).
Proof.
  intros Hs. unfold last_qualifying.
  rewrite filter_app, (filter_cons_True _ _ _ Hs).
  split.
  - rewrite last_app. rewrite last_cons.
    destruct (last (filter (qualifies y) l2)); reflexivity.
  - rewrite last_cons. destruct (last (filter (qualifies y) l2)); eauto.
Qed.

(** X9: scrolling further down never moves the highlight back to an
    earlier element: if an element qualifies at one offset, then at any
    larger offset the scan ends on that element or on a later one in
    document order, never on one before it. *)
Theorem scroll_down_never_selects_earlier (y y' : Q) (l1 l2 : list Element) (s : Element) :
  qualifies y s ->
  (y <= y')%Q ->
  exists s', last_qualifying y' (s :: l2) = Some s' /\
    scan_sections y' (l1 ++ s :: l2) = el_id s'.
Proof.
  intros Hs Hy.
  assert (Hs' : qualifies y' s) by (unfold qualifies in *; eapply Qle_trans; eauto).
  destruct (last_qualifying_app_qualifying y' l1 l2 s Hs') as [Heq [s' Hs'']].
  exists s'. split; [exact Hs'' |].
  unfold scan_sections. rewrite scan_sections_from, Heq, Hs''. reflexivity.
Qed.

Lemma scroll_down_never_selects_earlier_witness :
  qualifies 520 about /\ (520 <= 700)%Q /\
  exists s', last_qualifying 700 [about; anonymous] = Some s' /\
    scan_sections 700 ([home] ++ [about; anonymous]) = el_id s'.
Proof.
  assert (Hq : qualifies 520 about) by (unfold qualifies; vm_compute; discriminate).
  assert (Hy : (520 <= 700)%Q) by (vm_compute; discriminate).
  split; [exact Hq |]. split; [exact Hy |].
  apply (scroll_down_never_selects_earlier 520 700 [home] [anonymous] about Hq Hy).
Defined.

(** ** Scroll reveal, continued *)

Lemma hidden_style_idem (st : Style) : hidden_style (hidden_style st) = hidden_style st.
Proof. reflexivity. Qed.

Lemma revealed_style_idem (st : Style) :
  revealed_style (revealed_style st) = revealed_style st.
Proof. reflexivity. Qed.

(** One round of the set-up loop, seen from any element. *)
Lemma reveal_setup_step (el e : node) (p : Page) :
  let q := exec
    (set_style el (with_opacity "0") ;;
     set_style el (with_transform "translateY(20px)") ;;
     set_style el (with_transition "opacity 600ms ease-out, transform 600ms ease-out") ;;
     observer_observe el) p in
  style_of q e = (if decide (el = e) then hidden_style (style_of p e) else style_of p e) /\
  observed q = {[el]} ∪ observed p.
Proof.
  intros q. subst q. split; [| reflexivity].
  destruct (decide (el = e)) as [-> | Hne].
  - unfold style_of. simpl. rewrite lookup_insert_eq. simpl.
    unfold style_of. simpl. rewrite lookup_insert_eq. simpl.
    unfold style_of. simpl. rewrite lookup_insert_eq. reflexivity.
  - unfold style_of. simpl. rewrite !lookup_insert_ne by exact Hne. reflexivity.
Qed.

Lemma reveal_setup_fold_exact (g : Page -> node -> Page) (e : node) :
  (forall el q,
     style_of (g q el) e
     = (if decide (el = e) then hidden_style (style_of q e) else style_of q e) /\
     observed (g q el) = {[el]} ∪ observed q) ->
  forall els q,
    style_of (fold_left g els q) e
    = (if decide (e ∈ els) then hidden_style (style_of q e) else style_of q e) /\
    observed (fold_left g els q) = list_to_set els ∪ observed q.
Proof.
  intros Hg els. induction els as [| el els IH]; intros q.
  - simpl. split.
    + destruct (decide (e ∈ [])) as [Hin | _]; [| reflexivity].
      apply elem_of_nil in Hin. contradiction.
    + simpl. rewrite (left_id_L ∅ (∪)). reflexivity.
  - cbn [fold_left]. destruct (IH (g q el)) as [Hst Hob].
    destruct (Hg el q) as [Hst1 Hob1]. split.
    + rewrite Hst, Hst1.
      destruct (decide (el = e)) as [-> | Hne].
      * destruct (decide (e ∈ e :: els)) as [_ | Hn]; [| exfalso; apply Hn; left].
        destruct (decide (e ∈ els)); [apply hidden_style_idem | reflexivity].
      * destruct (decide (e ∈ els)) as [Hin | Hnin].
        -- destruct (decide (e ∈ el :: els)) as [_ | Hn]; [reflexivity |].
           exfalso. apply Hn. right. exact Hin.
        -- destruct (decide (e ∈ el :: els)) as [Hin | _]; [| reflexivity].
           apply elem_of_cons in Hin as [-> | Hin]; contradiction.
    + rewrite Hob, Hob1. simpl.
      rewrite (assoc_L (∪)), (comm_L (∪) (list_to_set els) {[el]}). reflexivity.
Qed.

(** What [initScrollReveal] computes, element by element. *)
Lemma initScrollReveal_run (p : Page) (e : node) :
  completion initScrollReveal p = Normal tt /\
  style_of (exec initScrollReveal p) e
  = (if decide (e ∈ revealElements p) then hidden_style (style_of p e) else style_of p e) /\
  observed (exec initScrollReveal p) = list_to_set (revealElements p) ∪ observed p.
Proof.
  assert (Hrun : initScrollReveal p
                 = (Normal tt,
                    fold_left (fun q el => exec
                      (set_style el (with_opacity "0") ;;
                       set_style el (with_transform "translateY(20px)") ;;
                       set_style el (with_transition
                         "opacity 600ms ease-out, transform 600ms ease-out") ;;
                       observer_observe el) q) (revealElements p) p)).
  { unfold initScrollReveal, bind, gets. rewrite forEach_total by reflexivity.
    reflexivity. }
  destruct (reveal_setup_fold_exact _ e (fun el q => reveal_setup_step el e q)
              (revealElements p) p) as [Hst Hob].
  unfold completion, exec. rewrite Hrun. cbn [fst snd].
  split; [reflexivity |]. split; assumption.
Qed.

(** X10: [initScrollReveal] never faults; it gives every reveal-eligible
    element opacity '0', the 20px shift and the transition while keeping
    its z-index, and observes it; the inline style and the observation of
    every other element are left as they were. *)
Theorem initScrollReveal_hides_only_eligible (p : Page) (e : node) :
  let p' := exec initScrollReveal p in
  completion initScrollReveal p = Normal tt /\
  (e ∈ revealElements p ->
     style_of p' e = hidden_style (style_of p e) /\
     zIndex (style_of p' e) = zIndex (style_of p e) /\
     e ∈ observed p') /\
  (e ∉ revealElements p ->
     style_of p' e = style_of p e /\ (e ∈ observed p' <-> e ∈ observed p)) /\
  observed p' = list_to_set (revealElements p) ∪ observed p.
Proof.
  intros p'. destruct (initScrollReveal_run p e) as (Hc & Hst & Hob).
  fold p' in Hst, Hob. split; [exact Hc |]. rewrite Hst, Hob.
  split; [| split; [| reflexivity]].
  - intros Hin. destruct (decide (e ∈ revealElements p)); [| contradiction].
    split; [reflexivity |]. split; [reflexivity |].
    apply elem_of_union_l, elem_of_list_to_set, Hin.
  - intros Hnin. destruct (decide (e ∈ revealElements p)); [contradiction |].
    split; [reflexivity |].
    rewrite elem_of_union, elem_of_list_to_set. tauto.
Qed.

Lemma initScrollReveal_hides_only_eligible_witness :
  (7%positive ∈ revealElements sample_page) /\
  (9%positive ∉ revealElements sample_page) /\
  style_of (exec initScrollReveal sample_page) 7%positive = hidden_style no_style /\
  style_of (exec initScrollReveal sample_page) 9%positive = no_style.
Proof.
  assert (H7 : 7%positive ∈ revealElements sample_page) by (simpl; left).
  assert (H9 : 9%positive ∉ revealElements sample_page).
  { simpl. intros Hin.
    repeat (apply elem_of_cons in Hin as [Heq | Hin]; [discriminate |]).
    apply elem_of_nil in Hin. exact Hin. }
  split; [exact H7 |]. split; [exact H9 |].
  destruct (initScrollReveal_hides_only_eligible sample_page 7%positive)
    as (_ & Hin & _).
  destruct (initScrollReveal_hides_only_eligible sample_page 9%positive)
    as (_ & _ & Hout & _).
  split; [exact (proj1 (Hin H7)) | exact (proj1 (Hout H9))].
Defined.

(** One entry of an intersection notification, seen from any element. *)
Lemma reveal_entry_step (entry : Entry) (e : node) (p : Page) :
  let q := exec
    (if isIntersecting entry then
       set_style (target entry) (with_opacity "1") ;;
       set_style (target entry) (with_transform "translateY(0)") ;;
       observer_unobserve (target entry)
     else ret tt) p in
  (target entry = e -> isIntersecting entry = true ->
     style_of q e = revealed_style (style_of p e) /\ e ∉ observed q) /\
  ((target entry = e -> isIntersecting entry = false) ->
     style_of q e = style_of p e /\ (e ∈ observed q <-> e ∈ observed p)).
Proof.
  intros q. subst q. split.
  - intros -> ->. split.
    + unfold style_of. simpl. rewrite lookup_insert_eq. simpl.
      unfold style_of. simpl. rewrite lookup_insert_eq. reflexivity.
    + simpl. rewrite elem_of_difference, elem_of_singleton. tauto.
  - intros Hmiss. destruct (isIntersecting entry) eqn:Ei; [| tauto].
    assert (Hne : target entry <> e) by (intros Heq; specialize (Hmiss Heq); discriminate).
    split.
    + unfold style_of. simpl. rewrite !lookup_insert_ne by exact Hne. reflexivity.
    + simpl. rewrite elem_of_difference, elem_of_singleton. split; [tauto |].
      intros Ho. split; [exact Ho | congruence].
Qed.

Lemma reveal_fold_exact (g : Page -> Entry -> Page) (e : node) :
  (forall en q,
     (target en = e -> isIntersecting en = true ->
        style_of (g q en) e = revealed_style (style_of q e) /\ e ∉ observed (g q en)) /\
     ((target en = e -> isIntersecting en = false) ->
        style_of (g q en) e = style_of q e /\
        (e ∈ observed (g q en) <-> e ∈ observed q))) ->
  forall entries q,
    (Exists (fun en => target en = e /\ isIntersecting en = true) entries ->
       style_of (fold_left g entries q) e = revealed_style (style_of q e) /\
       e ∉ observed (fold_left g entries q)) /\
    (Forall (fun en => target en = e -> isIntersecting en = false) entries ->
       style_of (fold_left g entries q) e = style_of q e /\
       (e ∈ observed (fold_left g entries q) <-> e ∈ observed q)).
Proof.
  intros Hg entries. induction entries as [| en entries IH]; intros q.
  - cbn [fold_left]. split; [| tauto].
    intros Hex. apply Exists_nil in Hex. contradiction.
  - cbn [fold_left]. destruct (IH (g q en)) as [IHhit IHmiss].
    destruct (Hg en q) as [Hhit Hkeep]. split.
    + intros Hex.
      destruct (decide (Exists (fun en => target en = e /\ isIntersecting en = true) entries))
        as [Hlater | Hnone].
      * destruct (IHhit Hlater) as [Hst Hob]. split; [| exact Hob].
        rewrite Hst.
        destruct (decide (target en = e /\ isIntersecting en = true)) as [[Ht Hi] | Hn].
        -- destruct (Hhit Ht Hi) as [Hst1 _]. rewrite Hst1. apply revealed_style_idem.
        -- assert (Hen : target en = e -> isIntersecting en = false).
           { intros Ht. destruct (isIntersecting en); [exfalso; apply Hn; tauto | reflexivity]. }
           destruct (Hkeep Hen) as [Hst1 _]. rewrite Hst1. reflexivity.
      * apply Exists_cons in Hex as [[Ht Hi] | Hex]; [| contradiction].
        destruct (Hhit Ht Hi) as [Hst1 Hob1].
        assert (Hall : Forall (fun en => target en = e -> isIntersecting en = false) entries).
        { apply Forall_forall. intros x Hx Htx.
          destruct (isIntersecting x) eqn:Ex; [| reflexivity].
          exfalso. apply Hnone. apply Exists_exists. exists x. tauto. }
        destruct (IHmiss Hall) as [Hst Hob].
        split; [rewrite Hst; exact Hst1 | rewrite Hob; exact Hob1].
    + intros Hall. apply Forall_cons in Hall as [Hen Hall].
      destruct (Hkeep Hen) as [Hst Hob].
      destruct (IHmiss Hall) as [Hst' Hob'].
      split; [rewrite Hst'; exact Hst | rewrite Hob'; exact Hob].
Qed.

(** X11: the observer callback reveals exactly the targets reported as
    intersecting: such an element gets opacity '1' and no shift (its
    transition and z-index kept) and is unobserved; an element that no
    intersecting entry names keeps its inline style and its observation.
    The callback never faults. *)
Theorem observer_callback_reveals_intersecting (entries : list Entry) (e : node) (p : Page) :
  let p' := exec (observer_callback entries) p in
  completion (observer_callback entries) p = Normal tt /\
  (Exists (fun en => target en = e /\ isIntersecting en = true) entries ->
     style_of p' e = revealed_style (style_of p e) /\ e ∉ observed p') /\
  (Forall (fun en => target en = e -> isIntersecting en = false) entries ->
     style_of p' e = style_of p e /\ (e ∈ observed p' <-> e ∈ observed p)).
Proof.
  intros p'.
  assert (Hrun := forEach_total entries _ p reveal_entry_total).
  fold (observer_callback entries) in Hrun.
  unfold p', completion, exec. rewrite Hrun. cbn [fst snd].
  split; [reflexivity |].
  apply (reveal_fold_exact _ e (fun en q => reveal_entry_step en e q)).
Qed.

Lemma observer_callback_reveals_intersecting_witness :
  let entries := [{| target := 7%positive; isIntersecting := true |};
                  {| target := 8%positive; isIntersecting := false |}] in
  let p := exec initScrollReveal sample_page in
  Exists (fun en => target en = 7%positive /\ isIntersecting en = true) entries /\
  Forall (fun en => target en = 8%positive -> isIntersecting en = false) entries /\
  is_visible (style_of (exec (observer_callback entries) p) 7%positive) = true /\
  is_hidden (style_of (exec (observer_callback entries) p) 8%positive) = true.
Proof.
  cbv zeta.
  set (entries := [{| target := 7%positive; isIntersecting := true |};
                   {| target := 8%positive; isIntersecting := false |}]).
  assert (H7 : Exists (fun en => target en = 7%positive /\ isIntersecting en = true) entries)
    by (apply Exists_cons_hd; split; reflexivity).
  assert (H8 : Forall (fun en => target en = 8%positive -> isIntersecting en = false) entries).
  { repeat apply Forall_cons_2; [discriminate | reflexivity | apply Forall_nil_2]. }
  split; [exact H7 |]. split; [exact H8 |].
  destruct (observer_callback_reveals_intersecting entries 7%positive
              (exec initScrollReveal sample_page)) as (_ & Hhit & _).
  destruct (observer_callback_reveals_intersecting entries 8%positive
              (exec initScrollReveal sample_page)) as (_ & _ & Hmiss).
  split.
  - rewrite (proj1 (Hhit H7)). reflexivity.
  - rewrite (proj1 (Hmiss H8)). reflexivity.
Defined.

(** ** What each listener leaves alone *)

Section Keeps.

Context {B : Type}.
Variable f : Page -> B.

Lemma keeps_ret {A} (a : A) : keeps f (ret a).
Proof. intros p. reflexivity. Qed.

Lemma keeps_throw {A} (e : JsError) : keeps f (@throw A e).
Proof. intros p. reflexivity. Qed.

Lemma keeps_gets {A} (g : Page -> A) : keeps f (gets g).
Proof. intros p. reflexivity. Qed.

Lemma keeps_modify (g : Page -> Page) :
  (forall p, f (g p) = f p) -> keeps f (modify g).
Proof. intros Hg p. apply Hg. Qed.

Lemma keeps_bind {A C} (c : Js A) (k : A -> Js C) :
  keeps f c -> (forall a, keeps f (k a)) -> keeps f (bind c k).
Proof.
  intros Hc Hk p. specialize (Hc p). unfold exec, bind in *.
  destruct (c p) as [[a | e] q]; simpl in *.
  - rewrite <- Hc. apply (Hk a q).
  - exact Hc.
Qed.

Lemma keeps_forEach {A} (l : list A) (body : A -> Js unit) :
  (forall x, keeps f (body x)) -> keeps f (forEach l body).
Proof.
  intros Hb. induction l as [| x l IH]; simpl.
  - apply keeps_ret.
  - apply keeps_bind; [apply Hb | intros _; exact IH].
Qed.

Lemma keeps_set_textContent (g : string) :
  (forall v p, f (set_themeToggle v p) = f p) ->
  keeps f (themeToggle_set_textContent g).
Proof.
  intros Hf p. unfold exec, themeToggle_set_textContent.
  destruct (themeToggle p); [apply Hf | reflexivity].
Qed.

Lemma keeps_toggle_listener (l : Listener) :
  (forall v p, f (set_listeners v p) = f p) ->
  keeps f (themeToggle_addEventListener l).
Proof.
  intros Hf p. unfold exec, themeToggle_addEventListener.
  destruct (themeToggle p); [apply Hf | reflexivity].
Qed.

Lemma keeps_navMenu_contains (c : string) : keeps f (navMenu_classList_contains c).
Proof.
  intros p. unfold exec, navMenu_classList_contains. destruct (navMenu p); reflexivity.
Qed.

Lemma keeps_navMenu_remove (c : string) :
  (forall v p, f (set_navMenu v p) = f p) ->
  keeps f (navMenu_classList_remove c).
Proof.
  intros Hf p. unfold exec, navMenu_classList_remove.
  destruct (navMenu p); [apply Hf | reflexivity].
Qed.

Lemma keeps_querySelector qs (sel : string) : keeps f (querySelector qs sel).
Proof. intros p. reflexivity. Qed.

End Keeps.

(** Splits a computation along its binds, loops and branches; the
    leaves are closed by [tac], which proves that one page update leaves
    the observation alone. *)
Ltac keeps_frame tac :=
  repeat first
    [ apply keeps_bind; [| intro]
    | apply keeps_forEach; intro
    | apply keeps_ret
    | apply keeps_throw
    | apply keeps_gets
    | apply keeps_navMenu_contains
    | apply keeps_querySelector
    | apply keeps_modify; intro; tac
    | apply keeps_set_textContent; intros ? ?; tac
    | apply keeps_toggle_listener; intros ? ?; tac
    | apply keeps_navMenu_remove; intros ? ?; tac
    | assumption
    | match goal with
      | |- keeps _ (if ?b then _ else _) => destruct b
      | |- keeps _ (match ?x with _ => _ end) => destruct x
      | |- keeps _ (let '(_, _) := ?x in _) => destruct x
      end ].

Ltac unfold_listeners :=
  unfold domContentLoaded, initThemeToggle, themeToggle_click, applyTheme,
    initScrollReveal, initActiveNavTracking, addActiveNavStyles,
    initProjectCardInteractions, window_scroll, navLink_click,
    card_mouseenter, card_mouseleave, projectLink_click,
    body_classList_contains, body_classList_add, body_classList_remove,
    localStorage_getItem, localStorage_setItem, addEventListener, console_log,
    preventDefault, window_scrollTo, observer_observe, observer_unobserve.



Section Latch.

Variable qs : Page -> string -> Completion (option Element).



End Latch.


(** ** Start-up, continued *)

Lemma exec_bind {A B} (c : Js A) (k : A -> Js B) (p : Page) (a : A) :
  completion c p = Normal a -> bind c k p = k a (exec c p).
Proof.
  unfold completion, exec, bind. destruct (c p) as [[a' | e] q]; simpl; [| discriminate].
  intros [= ->]. reflexivity.
Qed.

Lemma set_listeners_same (p : Page) : set_listeners (listeners p) p = p.
Proof. destruct p. reflexivity. Qed.

Lemma set_listeners_twice (a b : list Listener) (p : Page) :
  set_listeners a (set_listeners b p) = set_listeners a p.
Proof. reflexivity. Qed.

(** A loop whose body only registers listeners registers them in order. *)
Lemma forEach_register {A} (l : list A) (body : A -> Js unit) (h : A -> list Listener) :
  (forall x q, body x q = (Normal tt, set_listeners (listeners q ++ h x) q)) ->
  forall q, forEach l body q
            = (Normal tt, set_listeners (listeners q ++ mjoin (h <$> l)) q).
Proof.
  intros Hb. induction l as [| x l IH]; intros q.
  - simpl. rewrite app_nil_r, set_listeners_same. reflexivity.
  - simpl. unfold bind. rewrite Hb, IH. simpl.
    rewrite set_listeners_twice, <- app_assoc. reflexivity.
Qed.

Lemma mjoin_imap_singleton {A} (g : nat -> A -> Listener) (l : list A) :
  mjoin (imap (fun i x => [g i x]) l) = imap g l.
Proof.
  revert g. induction l as [| x l IH]; intros g; [reflexivity |].
  simpl. f_equal. apply (IH (fun i => g (S i))).
Qed.

Lemma script_toplevel_run (p : Page) :
  script_toplevel p
  = (Normal tt,
     set_listeners
       (listeners p ++ imap (fun i _ => NavLinkClick i) (navLinks p) ++ [DOMContentLoaded]) p).
Proof.
  unfold script_toplevel. unfold bind at 1. unfold gets.
  unfold bind.
  rewrite (forEach_register (imap pair (navLinks p)) _ (fun '(i, _) => [NavLinkClick i]));
    [| intros [i x] q; reflexivity].
  unfold addEventListener, modify. simpl.
  rewrite set_listeners_twice, <- app_assoc. do 3 f_equal.
  rewrite fmap_imap. f_equal.
  exact (mjoin_imap_singleton (fun i _ => NavLinkClick i) (navLinks p)).
Qed.

Lemma initProjectCardInteractions_run (p : Page) :
  initProjectCardInteractions p
  = (Normal tt,
     set_listeners (listeners p ++ mjoin (imap card_listeners (projectCards p))) p).
Proof.
  unfold initProjectCardInteractions. unfold bind at 1. unfold gets.
  rewrite (forEach_register (imap pair (projectCards p)) _
             (fun '(c, card) => card_listeners c card)).
  - do 3 f_equal. rewrite fmap_imap. reflexivity.
  - intros [c card] q. unfold addEventListener, bind, modify, card_listeners.
    destruct (projectLink card); simpl; rewrite <- !app_assoc; reflexivity.
Qed.

Lemma initProjectCardInteractions_completes (p : Page) :
  initProjectCardInteractions p = (Normal tt, exec initProjectCardInteractions p).
Proof. unfold exec. rewrite initProjectCardInteractions_run. reflexivity. Qed.

Lemma initThemeToggle_listeners (p : Page) (g : string) :
  themeToggle p = Some g ->
  listeners (exec initThemeToggle p) = (listeners p ++ [ThemeToggleClick])%list.
Proof.
  intros Hg. unfold exec. rewrite (initThemeToggle_run p g Hg). cbv zeta. simpl.
  unfold exec. rewrite (applyTheme_run _ p g Hg).
  destruct (String.eqb _ "dark"); reflexivity.
Qed.

Lemma initScrollReveal_completes (p : Page) :
  completion initScrollReveal p = Normal tt.
Proof.
  unfold initScrollReveal, completion, bind, gets.
  rewrite forEach_total by reflexivity. reflexivity.
Qed.

(** Proves that a listener or initializer leaves one field of the page
    alone. *)
Ltac keeps_field := unfold_listeners; keeps_frame ltac:(reflexivity).

Section StartupRun.

Variable qs : Page -> string -> Completion (option Element).

(** The page on which the DOMContentLoaded listener starts. *)
Lemma startup_dispatch (p : Page) :
  startup qs p
  = domContentLoaded
      (set_defaultPrevented false
         (set_listeners
            (listeners p ++ imap (fun i _ => NavLinkClick i) (navLinks p)
             ++ [DOMContentLoaded]) p)).
Proof.
  unfold startup, bind. rewrite script_toplevel_run.
  unfold step, bind, gets, modify. cbn [listeners set_listeners handler].
  rewrite bool_decide_eq_true_2; [reflexivity |].
  apply elem_of_app. right. apply elem_of_app. right. left.
Qed.

(** With the toggle button, the initializers run one after the other. *)
Lemma domContentLoaded_chain (p : Page) :
  has_toggle p ->
  domContentLoaded p
  = (Normal tt,
     exec initProjectCardInteractions
       (exec addActiveNavStyles
          (exec initActiveNavTracking
             (exec initScrollReveal
                (exec initThemeToggle
                   (exec (console_log "Portfolio loaded and initialized") p)))))).
Proof.
  intros Hp. unfold domContentLoaded.
  rewrite (exec_bind (console_log _) _ p tt) by reflexivity.
  set (p1 := exec (console_log "Portfolio loaded and initialized") p).
  assert (Hp1 : has_toggle p1) by exact Hp.
  destruct (triple_faults _ _ _ p1 initThemeToggle_with_toggle Hp1)
    as (_ & [] & Hc1 & _).
  rewrite (exec_bind initThemeToggle _ p1 tt Hc1).
  rewrite (exec_bind initScrollReveal _ _ tt (initScrollReveal_completes _)).
  rewrite (exec_bind initActiveNavTracking _ _ tt) by reflexivity.
  rewrite (exec_bind addActiveNavStyles _ _ tt) by reflexivity.
  apply initProjectCardInteractions_completes.
Qed.

(** X13: on a page with the toggle button, loading registers, after the
    listeners already there and in this order: one click listener per
    navigation link, DOMContentLoaded, the toggle's click, the window's
    scroll, and for every card its two hover listeners followed by a
    click listener when the card has a link; it appends one style
    element to the head and writes one line to the console. *)
Theorem startup_registers_listeners (p : Page) :
  has_toggle p ->
  let p' := exec (startup qs) p in
  completion (startup qs) p = Normal tt /\
  listeners p' = (listeners p ++ startup_listeners p)%list /\
  head_styles p' = (head_styles p ++ [active_nav_css])%list /\
  console p' = (console p ++ ["Portfolio loaded and initialized"])%list.
Proof.
  intros Hp p'. unfold p', exec, completion. rewrite startup_dispatch.
  set (p0 := set_defaultPrevented false _).
  assert (Hp0 : has_toggle p0) by exact Hp.
  rewrite (domContentLoaded_chain p0 Hp0). cbn [fst snd].
  set (p1 := exec (console_log "Portfolio loaded and initialized") p0).
  destruct (has_toggle_Some p1 Hp0) as [g Hg].
  set (p2 := exec initThemeToggle p1).
  set (p3 := exec initScrollReveal p2).
  assert (Hl3 : listeners p3 = listeners p2) by (apply (ltac:(keeps_field) : keeps listeners initScrollReveal)).
  assert (Hc2 : projectCards p2 = projectCards p1)
    by (apply (ltac:(keeps_field) : keeps projectCards initThemeToggle)).
  assert (Hc3 : projectCards p3 = projectCards p2)
    by (apply (ltac:(keeps_field) : keeps projectCards initScrollReveal)).
  assert (Hh2 : head_styles p2 = head_styles p1)
    by (apply (ltac:(keeps_field) : keeps head_styles initThemeToggle)).
  assert (Hh3 : head_styles p3 = head_styles p2)
    by (apply (ltac:(keeps_field) : keeps head_styles initScrollReveal)).
  assert (Ho2 : console p2 = console p1)
    by (apply (ltac:(keeps_field) : keeps console initThemeToggle)).
  assert (Ho3 : console p3 = console p2)
    by (apply (ltac:(keeps_field) : keeps console initScrollReveal)).
  set (p5 := exec addActiveNavStyles (exec initActiveNavTracking p3)).
  assert (Hh5 : head_styles (exec initProjectCardInteractions p5) = head_styles p5)
    by (apply (ltac:(keeps_field) : keeps head_styles initProjectCardInteractions)).
  assert (Ho5 : console (exec initProjectCardInteractions p5) = console p5)
    by (apply (ltac:(keeps_field) : keeps console initProjectCardInteractions)).
  assert (Hl5 : listeners (exec initProjectCardInteractions p5)
                = (listeners p5 ++ mjoin (imap card_listeners (projectCards p5)))%list)
    by (unfold exec; rewrite initProjectCardInteractions_run; reflexivity).
  split; [reflexivity |]. rewrite Hl5, Hh5, Ho5.
  split; [| split].
  - change (listeners p5) with (listeners p3 ++ [WindowScroll])%list.
    change (projectCards p5) with (projectCards p3).
    rewrite Hl3, Hc3, Hc2. unfold p2. rewrite (initThemeToggle_listeners p1 g Hg).
    change (listeners p1) with
      (listeners p ++ imap (fun i _ => NavLinkClick i) (navLinks p)
       ++ [DOMContentLoaded])%list.
    change (projectCards p1) with (projectCards p).
    unfold startup_listeners. rewrite <- !app_assoc. reflexivity.
  - change (head_styles p5) with (head_styles p3 ++ [active_nav_css])%list.
    rewrite Hh3, Hh2. reflexivity.
  - change (console p5) with (console p3).
    rewrite Ho3, Ho2. reflexivity.
Qed.

End StartupRun.

Lemma startup_registers_listeners_witness :
  has_toggle sample_page /\
  listeners (exec (startup sample_querySelector) sample_page)
  = (listeners sample_page ++ startup_listeners sample_page)%list.
Proof.
  assert (Hp : has_toggle sample_page) by (unfold has_toggle; simpl; discriminate).
  split; [exact Hp |].
  apply (startup_registers_listeners sample_querySelector sample_page Hp).
Defined.

Section StartupState.

Variable qs : Page -> string -> Completion (option Element).

(** X14: on a page with the toggle button, loading leaves every
    reveal-eligible element hidden (opacity '0', shifted, transition set,
    z-index kept) and observed, leaves the inline style of every other
    element alone, shows the dark theme exactly when 'dark' is stored,
    and writes nothing to storage. *)
Theorem startup_hides_and_applies_theme (p : Page) (e : node) :
  has_toggle p ->
  let p' := exec (startup qs) p in
  (e ∈ revealElements p ->
     style_of p' e = hidden_style (style_of p e) /\ e ∈ observed p') /\
  (e ∉ revealElements p -> style_of p' e = style_of p e) /\
  (dark_mode p' = true <-> stored_theme p = Some "dark") /\
  localStorage p' = localStorage p.
Proof.
  intros Hp p'. unfold p', exec. rewrite startup_dispatch.
  set (p0 := set_defaultPrevented false _).
  assert (Hp0 : has_toggle p0) by exact Hp.
  rewrite (domContentLoaded_chain p0 Hp0). cbn [snd].
  set (p1 := exec (console_log "Portfolio loaded and initialized") p0).
  destruct (has_toggle_Some p1 Hp0) as [g Hg].
  set (p2 := exec initThemeToggle p1).
  set (p3 := exec initScrollReveal p2).
  set (p5 := exec addActiveNavStyles (exec initActiveNavTracking p3)).
  set (p6 := exec initProjectCardInteractions p5).
  assert (Hi6 : inline_style p6 = inline_style p3)
    by exact ((ltac:(keeps_field) : keeps inline_style initProjectCardInteractions) p5).
  assert (Ho6 : observed p6 = observed p3)
    by exact ((ltac:(keeps_field) : keeps observed initProjectCardInteractions) p5).
  assert (Hb6 : body_classList p6 = body_classList p3)
    by exact ((ltac:(keeps_field) : keeps body_classList initProjectCardInteractions) p5).
  assert (Hs6 : localStorage p6 = localStorage p3)
    by exact (keeps_storage_initProjectCardInteractions p5).
  assert (Hr2 : revealElements p2 = revealElements p)
    by exact ((ltac:(keeps_field) : keeps revealElements initThemeToggle) p1).
  assert (Hi2 : inline_style p2 = inline_style p)
    by exact ((ltac:(keeps_field) : keeps inline_style initThemeToggle) p1).
  assert (Hst2 : style_of p2 e = style_of p e) by (unfold style_of; rewrite Hi2; reflexivity).
  assert (Hst6 : style_of p6 e = style_of p3 e) by (unfold style_of; rewrite Hi6; reflexivity).
  assert (Hb3 : body_classList p3 = body_classList p2)
    by exact ((ltac:(keeps_field) : keeps body_classList initScrollReveal) p2).
  destruct (initScrollReveal_run p2 e) as (_ & Hst3 & Hob3).
  fold p3 in Hst3, Hob3. rewrite Hr2, Hst2 in Hst3. rewrite Hr2 in Hob3.
  rewrite Hst6, Ho6, Hst3, Hob3.
  split; [| split; [| split]].
  - intros He. destruct (decide (e ∈ revealElements p)); [| contradiction].
    split; [reflexivity |]. apply elem_of_union_l, elem_of_list_to_set, He.
  - intros He. destruct (decide (e ∈ revealElements p)); [contradiction | reflexivity].
  - unfold dark_mode. rewrite Hb6, Hb3. unfold p2, exec.
    rewrite (initThemeToggle_run p1 g Hg). cbv zeta.
    cbn [body_classList set_listeners snd]. rewrite applyTheme_body.
    change (stored_theme p1) with (stored_theme p).
    change (body_classList p1) with (body_classList p).
    destruct (stored_theme p) as [v |]; cbn [js_or].
    + destruct (String.eqb v "") eqn:Ev.
      * apply String.eqb_eq in Ev. subst v.
        change (String.eqb "light" "dark") with false. cbv iota.
        rewrite classList_contains_remove. split; discriminate.
      * destruct (String.eqb v "dark") eqn:Ed.
        -- apply String.eqb_eq in Ed. subst v.
           rewrite classList_contains_add. tauto.
        -- apply String.eqb_neq in Ed. rewrite classList_contains_remove.
           split; [discriminate | congruence].
    + change (String.eqb "light" "dark") with false. cbv iota.
      rewrite classList_contains_remove. split; discriminate.
  - rewrite Hs6. unfold p3. rewrite keeps_storage_initScrollReveal.
    unfold p2. rewrite keeps_storage_initThemeToggle. reflexivity.
Qed.

(** X15: on a page without the toggle button, loading ends in a
    TypeError right after the body class is set from storage: the click
    listeners of the navigation links and DOMContentLoaded are
    registered and the console line is written, but no scroll, toggle or
    card listener is registered, no element is hidden or observed, and
    no style element is added. *)
Theorem startup_without_toggle_stops_early (p : Page) :
  themeToggle p = None ->
  let p' := exec (startup qs) p in
  completion (startup qs) p = Throw TypeError /\
  listeners p'
    = (listeners p ++ imap (fun i _ => NavLinkClick i) (navLinks p) ++ [DOMContentLoaded])%list /\
  body_classList p'
    = (if String.eqb (js_or (stored_theme p) "light") "dark"
       then classList_add "dark-mode" (body_classList p)
       else classList_remove "dark-mode" (body_classList p)) /\
  inline_style p' = inline_style p /\
  observed p' = observed p /\
  head_styles p' = head_styles p /\
  console p' = (console p ++ ["Portfolio loaded and initialized"])%list /\
  localStorage p' = localStorage p.
Proof.
  intros Hp p'. unfold p', exec, completion. rewrite startup_dispatch.
  unfold domContentLoaded, console_log, initThemeToggle, localStorage_getItem,
    applyTheme, body_classList_add, body_classList_remove,
    themeToggle_set_textContent, bind, gets, modify.
  cbn. change (localStorage p !! "theme") with (stored_theme p).
  destruct (String.eqb (js_or (stored_theme p) "light") "dark");
    cbn; rewrite Hp; cbn; repeat split; reflexivity.
Qed.

End StartupState.

Lemma startup_hides_and_applies_theme_witness :
  has_toggle sample_page /\
  7%positive ∈ revealElements sample_page /\
  style_of (exec (startup sample_querySelector) sample_page) 7%positive
  = hidden_style (style_of sample_page 7%positive).
Proof.
  assert (Hp : has_toggle sample_page) by (unfold has_toggle; simpl; discriminate).
  assert (H7 : 7%positive ∈ revealElements sample_page) by (simpl; left).
  split; [exact Hp |]. split; [exact H7 |].
  destruct (startup_hides_and_applies_theme sample_querySelector sample_page 7%positive Hp)
    as (Hin & _).
  exact (proj1 (Hin H7)).
Defined.

Lemma startup_without_toggle_stops_early_witness :
  themeToggle no_toggle_page = None /\
  completion (startup sample_querySelector) no_toggle_page = Throw TypeError /\
  observed (exec (startup sample_querySelector) no_toggle_page) = observed no_toggle_page.
Proof.
  split; [reflexivity |].
  destruct (startup_without_toggle_stops_early sample_querySelector no_toggle_page eq_refl)
    as (Hc & _ & _ & _ & Ho & _).
  split; [exact Hc | exact Ho].
Defined.

(** C7 (amended): the project cards and the link of a card are guarded,
    the cards by a loop that registers nothing for an empty list and the
    link by a presence check: [initProjectCardInteractions] never faults
    and registers, for each card in order, exactly its two hover
    listeners and a click listener when the card has a link, so a card
    without a link gets no click listener, and the hover listeners never
    fault; the navigation links are tolerated the same way, the
    top-level statements registering exactly one click listener per link
    and DOMContentLoaded; with the toggle button present, start-up
    completes without a fault whatever else is missing, navigation links
    included; without the toggle button, start-up ends in an unhandled
    TypeError. *)
Theorem optional_elements_tolerated_toggle_required
    (qs : Page -> string -> Completion (option Element)) (p : Page) :
  (has_toggle p -> completion (startup qs) p = Normal tt) /\
  (themeToggle p = None -> completion (startup qs) p = Throw TypeError) /\
  (forall c, faults (handler qs (CardMouseEnter c)) p = false /\
             faults (handler qs (CardMouseLeave c)) p = false) /\
  faults initProjectCardInteractions p = false /\
  link_listeners_guarded p (exec initProjectCardInteractions p) /\
  exec initProjectCardInteractions p
    = set_listeners (listeners p ++ mjoin (imap card_listeners (projectCards p))) p /\
  (projectCards p = [] -> exec initProjectCardInteractions p = p) /\
  (forall c card, projectLink card = false ->
     card_listeners c card = [CardMouseEnter c; CardMouseLeave c]) /\
  script_toplevel p
    = (Normal tt,
       set_listeners
         (listeners p ++ imap (fun i _ => NavLinkClick i) (navLinks p)
          ++ [DOMContentLoaded]) p) /\
  (navLinks p = [] ->
     exec script_toplevel p = set_listeners (listeners p ++ [DOMContentLoaded]) p).
Proof.
  split; [apply startup_with_toggle |].
  split; [apply startup_without_toggle |].
  split; [intros c; apply card_hover_never_faults |].
  split; [apply initProjectCardInteractions_guards_link |].
  split; [apply initProjectCardInteractions_guards_link |].
  split; [unfold exec; rewrite initProjectCardInteractions_run; reflexivity |].
  split.
  { intros Hnone. unfold exec. rewrite initProjectCardInteractions_run, Hnone.
    cbn [imap mjoin list_join snd]. rewrite app_nil_r. apply set_listeners_same. }
  split.
  { intros c card Hlink. unfold card_listeners. rewrite Hlink. reflexivity. }
  split; [apply script_toplevel_run |].
  intros Hnone. unfold exec. rewrite script_toplevel_run, Hnone. reflexivity.
Qed.

Lemma optional_elements_tolerated_toggle_required_witness :
  has_toggle bare_page /\
  completion (startup sample_querySelector) bare_page = Normal tt /\
  themeToggle no_toggle_page = None /\
  completion (startup sample_querySelector) no_toggle_page = Throw TypeError /\
  projectCards bare_page = [] /\
  exec initProjectCardInteractions bare_page = bare_page /\
  navLinks bare_page = [] /\
  listeners (exec script_toplevel bare_page) = [DOMContentLoaded].
Proof.
  assert (Hb : has_toggle bare_page) by (unfold has_toggle; simpl; discriminate).
  destruct (optional_elements_tolerated_toggle_required sample_querySelector bare_page)
    as (Hok & _ & _ & _ & _ & _ & Hcards & _ & _ & Hlinks).
  destruct (optional_elements_tolerated_toggle_required sample_querySelector no_toggle_page)
    as (_ & Hfault & _).
  split; [exact Hb |]. split; [exact (Hok Hb) |].
  split; [reflexivity |]. split; [exact (Hfault eq_refl) |].
  split; [reflexivity |]. split; [exact (Hcards eq_refl) |].
  split; [reflexivity |]. rewrite (Hlinks eq_refl). reflexivity.
Defined.

(** ** Utility functions *)

(** X16: [addClassSmooth] faults and leaves the class list as it was
    when the class name is empty (SyntaxError) or holds ASCII whitespace
    (InvalidCharacterError); on any other name it leaves the class on
    the element, keeps the classes already there in their order, never
    repeats a token, and changes nothing when the class is already
    present, so applying it twice is the same as once. *)
Theorem addClassSmooth_adds_once (element : list string) (className : string) :
  (className = "" ->
     addClassSmooth element className = (Some DOMSyntaxError, element)) /\
  (className <> "" -> has_ascii_whitespace className = true ->
     addClassSmooth element className = (Some InvalidCharacterError, element)) /\
  (className <> "" -> has_ascii_whitespace className = false ->
     exists l,
       addClassSmooth element className = (None, l) /\
       classList_contains className l = true /\
       (exists added, l = (element ++ added)%list) /\
       (classList_contains className element = true -> l = element) /\
       addClassSmooth l className = (None, l) /\
       (NoDup element -> NoDup l)).
Proof.
  unfold addClassSmooth, token_fault. split; [| split].
  - intros ->. reflexivity.
  - intros Hne Hws. apply String.eqb_neq in Hne. rewrite Hne, Hws. reflexivity.
  - intros Hne Hws. apply String.eqb_neq in Hne. rewrite Hne, Hws.
    exists (classList_add className element).
    split; [reflexivity |]. split; [apply classList_contains_add |].
    split; [| split; [| split]].
    + unfold classList_add. destruct (classList_contains className element).
      * exists []. symmetry. apply app_nil_r.
      * exists [className]. reflexivity.
    + intros Hc. unfold classList_add. rewrite Hc. reflexivity.
    + rewrite classList_add_idem. reflexivity.
    + apply classList_add_NoDup.
Qed.

Lemma addClassSmooth_adds_once_witness :
  "active" <> "" /\ has_ascii_whitespace "active" = false /\
  "nav link" <> "" /\ has_ascii_whitespace "nav link" = true /\
  addClassSmooth ["nav-menu"] "" = (Some DOMSyntaxError, ["nav-menu"]) /\
  addClassSmooth ["nav-menu"] "nav link" = (Some InvalidCharacterError, ["nav-menu"]) /\
  exists l, addClassSmooth ["nav-menu"] "active" = (None, l) /\
            classList_contains "active" l = true.
Proof.
  assert (Ha : "active" <> "") by discriminate.
  assert (Hn : "nav link" <> "") by discriminate.
  destruct (addClassSmooth_adds_once ["nav-menu"] "") as (Hempty & _).
  destruct (addClassSmooth_adds_once ["nav-menu"] "nav link") as (_ & Hspace & _).
  destruct (addClassSmooth_adds_once ["nav-menu"] "active") as (_ & _ & Hvalid).
  destruct (Hvalid Ha eq_refl) as (l & Hl & Hc & _).
  split; [exact Ha |]. split; [reflexivity |].
  split; [exact Hn |]. split; [reflexivity |].
  split; [exact (Hempty eq_refl) |]. split; [exact (Hspace Hn eq_refl) |].
  exists l. split; assumption.
Defined.

Lemma isInViewport_true (rect : DOMRect) (w : Viewport) :
  isInViewport rect w = true <->
  (0 <= rect_top rect)%Q /\ (0 <= rect_left rect)%Q /\
  (rect_bottom rect <= js_or_number (innerHeight w) (clientHeight w))%Q /\
  (rect_right rect <= js_or_number (innerWidth w) (clientWidth w))%Q.
Proof.
  unfold isInViewport. rewrite !andb_true_iff, !Qle_bool_iff. tauto.
Qed.

(** X17: [isInViewport] is monotone in the rectangle: whatever lies
    within a rectangle that is in the viewport is in the viewport too. *)
Theorem isInViewport_within (inner outer : DOMRect) (w : Viewport) :
  rect_within inner outer ->
  isInViewport outer w = true ->
  isInViewport inner w = true.
Proof.
  intros (Ht & Hl & Hb & Hr). rewrite !isInViewport_true.
  intros (Ht' & Hl' & Hb' & Hr').
  split; [| split; [| split]]; lra.
Qed.

Lemma isInViewport_within_witness :
  let w := {| innerHeight := 800; innerWidth := 1200;
              clientHeight := 780; clientWidth := 1180 |} in
  let outer := {| rect_top := 10; rect_left := 0; rect_bottom := 700; rect_right := 1200 |} in
  let inner := {| rect_top := 20; rect_left := 30; rect_bottom := 600; rect_right := 900 |} in
  rect_within inner outer /\ isInViewport outer w = true /\ isInViewport inner w = true.
Proof.
  cbv zeta.
  set (w := {| innerHeight := 800; innerWidth := 1200;
               clientHeight := 780; clientWidth := 1180 |}).
  set (outer := {| rect_top := 10; rect_left := 0; rect_bottom := 700; rect_right := 1200 |}).
  set (inner := {| rect_top := 20; rect_left := 30; rect_bottom := 600; rect_right := 900 |}).
  assert (Hw : rect_within inner outer).
  { unfold rect_within, Qle. simpl. lia. }
  assert (Ho : isInViewport outer w = true) by reflexivity.
  split; [exact Hw |]. split; [exact Ho |].
  apply (isInViewport_within inner outer w Hw Ho).
Defined.

(** X18: an element taller or wider than the viewport is never in the
    viewport, where the viewport height is [innerHeight] unless that is
    zero and then the document element's [clientHeight] (likewise for
    the width); an element with any edge outside is not in it either. *)
Theorem isInViewport_false_when_larger (rect : DOMRect) (w : Viewport) :
  let height := js_or_number (innerHeight w) (clientHeight w) in
  let width := js_or_number (innerWidth w) (clientWidth w) in
  ((height < rect_bottom rect - rect_top rect)%Q -> isInViewport rect w = false) /\
  ((width < rect_right rect - rect_left rect)%Q -> isInViewport rect w = false) /\
  ((rect_top rect < 0)%Q \/ (rect_left rect < 0)%Q \/
   (height < rect_bottom rect)%Q \/ (width < rect_right rect)%Q ->
   isInViewport rect w = false) /\
  ((innerHeight w == 0)%Q -> height = clientHeight w) /\
  (~ (innerHeight w == 0)%Q -> height = innerHeight w).
Proof.
  intros height width.
  assert (Hfalse : forall P : Prop,
            (isInViewport rect w = true -> ~ P) -> P -> isInViewport rect w = false).
  { intros P Hn HP. destruct (isInViewport rect w) eqn:E; [| reflexivity].
    exfalso. exact (Hn eq_refl HP). }
  split; [| split; [| split; [| split]]].
  - apply Hfalse. rewrite isInViewport_true. fold height.
    intros (Ht & _ & Hb & _) Hlt. lra.
  - apply Hfalse. rewrite isInViewport_true. fold width.
    intros (_ & Hl & _ & Hr) Hlt. lra.
  - apply Hfalse. rewrite isInViewport_true. fold height width.
    intros (Ht & Hl & Hb & Hr) [H | [H | [H | H]]]; lra.
  - intros Hz. unfold height, js_or_number.
    apply Qeq_bool_iff in Hz. rewrite Hz. reflexivity.
  - intros Hz. unfold height, js_or_number.
    destruct (Qeq_bool (innerHeight w) 0) eqn:E; [| reflexivity].
    apply Qeq_bool_iff in E. contradiction.
Qed.

Lemma isInViewport_false_when_larger_witness :
  let w := {| innerHeight := 0; innerWidth := 1200;
              clientHeight := 780; clientWidth := 1180 |} in
  let rect := {| rect_top := 10; rect_left := 0; rect_bottom := 900; rect_right := 300 |} in
  (js_or_number (innerHeight w) (clientHeight w) < rect_bottom rect - rect_top rect)%Q /\
  isInViewport rect w = false.
Proof.
  cbv zeta.
  set (w := {| innerHeight := 0; innerWidth := 1200;
               clientHeight := 780; clientWidth := 1180 |}).
  set (rect := {| rect_top := 10; rect_left := 0; rect_bottom := 900; rect_right := 300 |}).
  assert (Hlt : (js_or_number (innerHeight w) (clientHeight w)
                 < rect_bottom rect - rect_top rect)%Q) by (vm_compute; reflexivity).
  split; [exact Hlt |].
  exact (proj1 (isInViewport_false_when_larger rect w) Hlt).
Defined.

(** ** Debounce *)

Section DebounceProperties.

Import Debounce.

Context {A : Type}.
Variable wait : Z.

Abbreviation State := (@State A).

(** The delay is never negative, and it is the argument itself when
    that is a non-negative signed 32-bit integer. *)
Lemma timer_delay_nonneg (delay : Z) : 0 <= timer_delay delay.
Proof. unfold timer_delay. lia. Qed.

Lemma timer_delay_in_range (delay : Z) :
  0 <= delay < 2 ^ 31 -> timer_delay delay = delay.
Proof.
  intros Hr. unfold timer_delay, to_int32. cbv zeta.
  rewrite Z.mod_small by lia.
  destruct (2 ^ 31 <=? delay) eqn:E; [apply Z.leb_le in E; lia | lia].
Qed.

Lemma fresh_reachable_inv (t0 : Z) : reachable_inv wait (@fresh A t0).
Proof.
  unfold reachable_inv, pending_is_latest, calls_in_order, answered_once. simpl.
  split; [left; reflexivity |]. split; [| split].
  - split.
    + intros x Hx. apply elem_of_nil in Hx. contradiction.
    + intros c x Hc. destruct c; discriminate.
  - intros x Hx. apply elem_of_nil in Hx. contradiction.
  - split; [intros _; reflexivity |].
    intros c x _ Hc. destruct c; discriminate.
Qed.

(** What a call does to a state in which at most the latest call's timer
    is pending: that timer is replaced by one for this call. *)
Lemma executedFunction_run (args : A) (st : State) :
  pending_is_latest wait st ->
  executedFunction wait args st
  = {| now := now st;
       timers := {[ next_timer st := (now st + timer_delay wait, args) ]};
       next_timer := S (next_timer st);
       timeout := Some (next_timer st);
       called := called st ++ [(now st, args)];
       invoked := invoked st |}.
Proof.
  intros Hp. unfold executedFunction, setTimeout, clearTimeout. simpl.
  destruct Hp as [Hempty | (id & c & t0 & a & Hto & Htm & _)].
  - destruct (timeout st); simpl; rewrite Hempty, ?delete_empty; reflexivity.
  - rewrite Hto. simpl. rewrite Htm, delete_singleton_eq. reflexivity.
Qed.

Lemma singleton_timer_not_empty (id : nat) (v : Z * A) :
  ({[ id := v ]} : gmap nat (Z * A)) <> ∅.
Proof. apply insert_non_empty. Qed.

Lemma call_keeps_inv (args : A) (st : State) :
  reachable_inv wait st -> reachable_inv wait (executedFunction wait args st).
Proof.
  intros (Hp & [Hc Ht] & Hq & [Hs1 Hs2]).
  rewrite (executedFunction_run args st Hp).
  unfold reachable_inv, pending_is_latest, calls_in_order, answered_once. simpl.
  split; [| split; [| split]].
  - right. exists (next_timer st), (called st), (now st), args. repeat split.
  - split.
    + intros x Hx. apply elem_of_app in Hx as [Hx | Hx]; [apply Hc, Hx |].
      apply list_elem_of_singleton in Hx. subst x. simpl. lia.
    + intros c x Heq y Hy. apply app_inj_tail in Heq as [<- <-].
      simpl. apply Hc, Hy.
  - intros x Hx. destruct (Hq x Hx) as [Hle (t0 & Hin & Hw & Hquiet)].
    split; [exact Hle |]. exists t0. simpl. split; [| split].
    + apply elem_of_app. left. exact Hin.
    + exact Hw.
    + intros y Hy. apply elem_of_app in Hy as [Hy | Hy]; [apply Hquiet, Hy |].
      apply list_elem_of_singleton in Hy. subst y. simpl. right. exact Hle.
  - split.
    + intros Hempty. exfalso. exact (singleton_timer_not_empty _ _ Hempty).
    + intros c x _ Heq. apply app_inj_tail in Heq as [<- _].
      destruct Hp as [Hempty | (id & c0 & t0 & a & _ & Htm & Hcalled)].
      * apply Hs1, Hempty.
      * rewrite Hcalled, fmap_app. apply sublist_inserts_r.
        apply (Hs2 c0 (t0, a)); [| exact Hcalled].
        rewrite Htm. apply singleton_timer_not_empty.
Qed.

(** What an expiry does: nothing unless the named timer is pending and
    due; then that timer is the latest call's, and [func] runs on its
    arguments. *)
Lemma expire_run (id : nat) (st : State) :
  pending_is_latest wait st ->
  host_step wait (Expire id) st = st \/
  exists c t0 a,
    called st = (c ++ [(t0, a)])%list /\
    timers st = {[ id := (t0 + timer_delay wait, a) ]} /\
    t0 + timer_delay wait <= now st /\
    host_step wait (Expire id) st
    = {| now := now st; timers := ∅; next_timer := next_timer st;
         timeout := timeout st; called := called st;
         invoked := invoked st ++ [(now st, a)] |}.
Proof.
  intros Hp. unfold host_step.
  destruct (timers st !! id) as [[due args] |] eqn:El; [| left; reflexivity].
  destruct (due <=? now st) eqn:Ed; [| left; reflexivity].
  apply Z.leb_le in Ed. right.
  destruct Hp as [Hempty | (id0 & c & t0 & a & Hto & Htm & Hcalled)].
  - rewrite Hempty, lookup_empty in El. discriminate.
  - rewrite Htm in El. apply lookup_singleton_Some in El as [<- [= <- <-]].
    exists c, t0, a. split; [exact Hcalled |]. split; [exact Htm |].
    split; [exact Ed |].
    unfold later, func, clearTimeout. simpl. rewrite Hto. simpl.
    rewrite Htm, delete_singleton_eq, delete_empty. reflexivity.
Qed.

Lemma expire_keeps_inv (id : nat) (st : State) :
  reachable_inv wait st -> reachable_inv wait (host_step wait (Expire id) st).
Proof.
  intros Hinv. pose proof Hinv as (Hp & [Hc Ht] & Hq & [Hs1 Hs2]).
  destruct (expire_run id st Hp) as [-> | (c & t0 & a & Hcalled & Htm & Hdue & ->)];
    [exact Hinv |].
  unfold reachable_inv, pending_is_latest, calls_in_order, answered_once. simpl.
  split; [left; reflexivity |]. split; [split; assumption |]. split.
  - intros x Hx. apply elem_of_app in Hx as [Hx | Hx].
    + destruct (Hq x Hx) as [Hle Hquiet]. split; [exact Hle | exact Hquiet].
    + apply list_elem_of_singleton in Hx. subst x. simpl. split; [lia |].
      exists t0. simpl. split; [| split].
      * rewrite Hcalled. apply elem_of_app. right. left.
      * exact Hdue.
      * intros y Hy. left. rewrite Hcalled in Hy.
        apply elem_of_app in Hy as [Hy | Hy].
        -- apply (Ht c (t0, a) Hcalled y Hy).
        -- apply list_elem_of_singleton in Hy. subst y. simpl. lia.
  - split.
    + intros _. rewrite Hcalled, !fmap_app. apply sublist_app; [| reflexivity].
      apply (Hs2 c (t0, a)); [| exact Hcalled].
      rewrite Htm. apply singleton_timer_not_empty.
    + intros c' x Hne. contradiction.
Qed.

Lemma advance_keeps_inv (dt : Z) (st : State) :
  reachable_inv wait st -> reachable_inv wait (host_step wait (Advance dt) st).
Proof.
  intros (Hp & [Hc Ht] & Hq & Hs).
  unfold reachable_inv, pending_is_latest, calls_in_order, answered_once in *. simpl.
  split; [exact Hp |]. split; [| split; [| exact Hs]].
  - split; [| exact Ht]. intros x Hx. specialize (Hc x Hx). lia.
  - intros x Hx. destruct (Hq x Hx) as [Hle Hquiet]. split; [lia | exact Hquiet].
Qed.

Lemma host_step_keeps_inv (op : HostOp) (st : State) :
  reachable_inv wait st -> reachable_inv wait (host_step wait op st).
Proof.
  destruct op as [args | dt | id].
  - apply call_keeps_inv.
  - apply advance_keeps_inv.
  - apply expire_keeps_inv.
Qed.

Lemma host_run_keeps_inv (ops : list HostOp) (st : State) :
  reachable_inv wait st -> reachable_inv wait (host_run wait ops st).
Proof.
  revert st. induction ops as [| op ops IH]; intros st Hinv; [exact Hinv |].
  simpl. apply IH, host_step_keeps_inv, Hinv.
Qed.

(** X19: however the debounced function is called and whenever timers
    expire, at most one of its timers is pending, the one [timeout]
    names, and it carries the arguments of the latest call; it is due
    the host's delay after that call, which is [wait] read as a signed
    32-bit integer with a negative value counting as zero, hence [wait]
    itself when 0 <= wait < 2^31. *)
Theorem debounce_keeps_one_timer (t0 : Z) (ops : list HostOp) :
  let st := host_run wait ops (@fresh A t0) in
  (size (timers st) <= 1)%nat /\
  (forall id due a, timers st !! id = Some (due, a) ->
     timeout st = Some id /\
     exists c t, called st = (c ++ [(t, a)])%list /\
       due = t + Z.max 0 (to_int32 wait) /\
       (0 <= wait < 2 ^ 31 -> due = t + wait)).
Proof.
  intros st.
  destruct (host_run_keeps_inv ops _ (fresh_reachable_inv t0)) as (Hp & _).
  fold st in Hp. destruct Hp as [Hempty | (id & c & t & a & Hto & Htm & Hcalled)].
  - rewrite Hempty. split; [rewrite map_size_empty; lia |].
    intros id due a Hl. rewrite lookup_empty in Hl. discriminate.
  - rewrite Htm. split; [rewrite map_size_singleton; lia |].
    intros id' due a' Hl. apply lookup_singleton_Some in Hl as [<- [= <- <-]].
    split; [exact Hto |]. exists c, t. split; [exact Hcalled |].
    split; [reflexivity |].
    intros Hr. rewrite (timer_delay_in_range wait Hr). reflexivity.
Qed.

(** X20: [func] only ever runs after a quiet period: every invocation
    carries the arguments of a call made at least the host's delay
    earlier, with no call between that call and the invocation; the
    host's delay is [wait] read as a signed 32-bit integer with a
    negative value counting as zero, hence at least [wait] itself when
    0 <= wait < 2^31. *)
Theorem debounce_invokes_after_quiet (t0 : Z) (ops : list HostOp) (t : Z) (a : A) :
  let st := host_run wait ops (@fresh A t0) in
  (t, a) ∈ invoked st ->
  exists tc,
    (tc, a) ∈ called st /\
    tc + Z.max 0 (to_int32 wait) <= t /\
    (0 <= wait < 2 ^ 31 -> tc + wait <= t) /\
    forall x, x ∈ called st -> fst x <= tc \/ t <= fst x.
Proof.
  intros st Hin.
  destruct (host_run_keeps_inv ops _ (fresh_reachable_inv t0)) as (_ & _ & Hq & _).
  destruct (Hq (t, a) Hin) as [_ (tc & Hc & Hw & Hquiet)].
  exists tc. split; [exact Hc |]. split; [exact Hw |]. split; [| exact Hquiet].
  intros Hr. rewrite <- (timer_delay_in_range wait Hr). exact Hw.
Qed.

(** X21: [func] runs at most once per call and in the order of the
    calls: the arguments it was invoked with form a subsequence of the
    arguments of the calls, so there are never more invocations than
    calls. *)
Theorem debounce_invokes_each_call_at_most_once (t0 : Z) (ops : list HostOp) :
  let st := host_run wait ops (@fresh A t0) in
  snd <$> invoked st `sublist_of` snd <$> called st /\
  (length (invoked st) <= length (called st))%nat.
Proof.
  intros st.
  destruct (host_run_keeps_inv ops _ (fresh_reachable_inv t0)) as (Hp & _ & _ & [Hs1 Hs2]).
  fold st in Hp, Hs1, Hs2.
  assert (Hsub : snd <$> invoked st `sublist_of` snd <$> called st).
  { destruct Hp as [Hempty | (id & c & t & a & _ & Htm & Hcalled)].
    - apply Hs1, Hempty.
    - rewrite Hcalled, fmap_app. apply sublist_inserts_r.
      apply (Hs2 c (t, a)); [| exact Hcalled].
      rewrite Htm. apply singleton_timer_not_empty. }
  split; [exact Hsub |].
  apply sublist_length in Hsub. rewrite !length_fmap in Hsub. exact Hsub.
Qed.

Lemma calls_run (bs : list A) (a : A) (st : State) :
  pending_is_latest wait st ->
  exists id n,
    host_run wait (Call <$> (bs ++ [a])%list) st
    = {| now := now st;
         timers := {[ id := (now st + timer_delay wait, a) ]};
         next_timer := n;
         timeout := Some id;
         called := called st ++ ((fun b => (now st, b)) <$> (bs ++ [a])%list);
         invoked := invoked st |}.
Proof.
  revert st. induction bs as [| b bs IH]; intros st Hp.
  - simpl. rewrite (executedFunction_run a st Hp). eauto.
  - cbn [app fmap list_fmap host_run fold_left host_step].
    rewrite (executedFunction_run b st Hp).
    edestruct IH as (id & n & Hrun).
    2: { unfold host_run in Hrun. cbn [fmap] in Hrun. rewrite Hrun.
         exists id, n. simpl. rewrite <- app_assoc. reflexivity. }
    right. simpl. exists (next_timer st), (called st), (now st), b. repeat split.
Qed.

(** X22: a burst of calls gives one invocation: after any history, when
    the function is called several times in a row and then left alone
    for at least the host's delay ([wait] read as a signed 32-bit
    integer, a negative value counting as zero), the expiry of the timer
    it holds runs [func] exactly once, on the arguments of the last call
    of the burst. *)
Theorem debounce_burst_invokes_last_once
    (t0 : Z) (ops : list HostOp) (bs : list A) (a : A) (dt : Z) :
  Z.max 0 (to_int32 wait) <= dt ->
  let st := host_run wait ops (@fresh A t0) in
  let st1 := host_run wait (Call <$> (bs ++ [a])%list) st in
  invoked st1 = invoked st /\
  exists id,
    timeout st1 = Some id /\
    invoked (host_run wait [Advance dt; Expire id] st1)
    = (invoked st ++ [(now st + dt, a)])%list.
Proof.
  intros Hdt st st1.
  destruct (host_run_keeps_inv ops _ (fresh_reachable_inv t0)) as (Hp & _).
  fold st in Hp.
  destruct (calls_run bs a st Hp) as (id & n & Hrun). fold st1 in Hrun.
  rewrite Hrun. split; [reflexivity |].
  exists id. split; [reflexivity |].
  cbn [host_run fold_left host_step now timers]. rewrite lookup_singleton_eq.
  assert (Hmax : Z.max 0 dt = dt) by lia. rewrite Hmax.
  destruct (now st + timer_delay wait <=? now st + dt) eqn:E;
    [| apply Z.leb_gt in E; unfold timer_delay in E; lia].
  reflexivity.
Qed.

End DebounceProperties.

Lemma debounce_invokes_after_quiet_witness :
  let ops := [Debounce.Call "a"; Debounce.Advance 100; Debounce.Call "b";
              Debounce.Advance 300; Debounce.Expire 2] in
  (400, "b") ∈ Debounce.invoked (Debounce.host_run 250 ops (Debounce.fresh 0)) /\
  exists tc,
    (tc, "b") ∈ Debounce.called (Debounce.host_run 250 ops (Debounce.fresh 0)) /\
    tc + 250 <= 400.
Proof.
  cbv zeta.
  assert (Hin : (400, "b") ∈ Debounce.invoked
            (Debounce.host_run 250
               [Debounce.Call "a"; Debounce.Advance 100; Debounce.Call "b";
                Debounce.Advance 300; Debounce.Expire 2] (Debounce.fresh 0)))
    by (vm_compute; left).
  split; [exact Hin |].
  destruct (debounce_invokes_after_quiet 250 0 _ 400 "b" Hin)
    as (tc & Hc & _ & Hw & _).
  exists tc. split; [exact Hc |]. apply Hw. split; [discriminate | reflexivity].
Defined.

Lemma debounce_burst_invokes_last_once_witness :
  Z.max 0 (Debounce.to_int32 250) <= 300 /\
  exists id,
    Debounce.invoked
      (Debounce.host_run 250 [Debounce.Advance 300; Debounce.Expire id]
         (Debounce.host_run 250 (Debounce.Call <$> (["a"; "b"] ++ ["c"])%list)
            (Debounce.host_run 250 [] (Debounce.fresh 0))))
    = [(300, "c")].
Proof.
  assert (Hdt : Z.max 0 (Debounce.to_int32 250) <= 300) by (vm_compute; discriminate).
  split; [exact Hdt |].
  destruct (debounce_burst_invokes_last_once 250 0 [] ["a"; "b"] "c" 300 Hdt)
    as (_ & id & _ & Hinv).
  exists id. exact Hinv.
Defined.

Example debounce_delay_readings :
  Debounce.timer_delay 250 = 250 /\
  Debounce.timer_delay (-5) = 0 /\
  Debounce.timer_delay (2 ^ 31) = 0 /\
  Debounce.timer_delay (5 - 2 ^ 32) = 5.
Proof. vm_compute. repeat split. Qed.

Example debounce_sample_run :
  let st := Debounce.host_run 250
              [Debounce.Call "a"; Debounce.Advance 100; Debounce.Expire 1;
               Debounce.Call "b"; Debounce.Advance 249; Debounce.Expire 2;
               Debounce.Advance 1; Debounce.Expire 1; Debounce.Expire 2;
               Debounce.Expire 2]
              (Debounce.fresh 0) in
  Debounce.invoked st = [(350, "b")] /\
  Debounce.called st = [(0, "a"); (100, "b")].
Proof. vm_compute. split; reflexivity. Qed.

(** ** Each feature keeps to its own part of the page *)

Section Independence.

Variable qs : Page -> string -> Completion (option Element).

(** X23: the five features do not interfere: whether it completes or
    faults, the theme click leaves links, menu, inline styles,
    observation, scroll requests and listeners alone; the scroll
    listener changes nothing but the navigation links; a navigation
    click leaves theme, links, inline styles, observation, storage and
    listeners alone; the observer callback and the card hover listeners
    change nothing but inline styles and observation; a project link
    click changes nothing but the console. *)
Theorem features_keep_to_their_part :
  keeps (fun p => (navLinks p, navMenu p, inline_style p, observed p,
                   scroll_requests p, listeners p, console p, head_styles p))
        themeToggle_click /\
  keeps (fun p => (body_classList p, themeToggle p, navMenu p, inline_style p,
                   observed p, localStorage p, scroll_requests p, listeners p,
                   console p, head_styles p, defaultPrevented p))
        window_scroll /\
  (forall link,
     keeps (fun p => (body_classList p, themeToggle p, navLinks p, inline_style p,
                      observed p, localStorage p, listeners p, console p,
                      head_styles p))
           (navLink_click qs link)) /\
  (forall entries,
     keeps (fun p => (body_classList p, themeToggle p, navLinks p, navMenu p,
                      localStorage p, scroll_requests p, listeners p, console p,
                      head_styles p, defaultPrevented p))
           (observer_callback entries)) /\
  (forall card,
     keeps (fun p => (body_classList p, themeToggle p, navLinks p, navMenu p,
                      observed p, localStorage p, scroll_requests p, listeners p,
                      console p, head_styles p, defaultPrevented p))
           (card_mouseenter card) /\
     keeps (fun p => (body_classList p, themeToggle p, navLinks p, navMenu p,
                      observed p, localStorage p, scroll_requests p, listeners p,
                      console p, head_styles p, defaultPrevented p))
           (card_mouseleave card) /\
     keeps (fun p => (body_classList p, themeToggle p, navLinks p, navMenu p,
                      inline_style p, observed p, localStorage p, scroll_requests p,
                      listeners p, head_styles p, defaultPrevented p))
           (projectLink_click card)).
Proof.
  split; [keeps_field |]. split; [keeps_field |].
  split; [intros link; keeps_field |].
  split; [intros entries; unfold observer_callback, set_style; keeps_field |].
  intros card. split; [| split].
  - unfold card_mouseenter, set_style. keeps_field.
  - unfold card_mouseleave, set_style. keeps_field.
  - keeps_field.
Qed.

End Independence.

(** ** Card hover and project link *)

(** X24: leaving a card undoes entering it: after mouseenter the card's
    z-index is '1', after mouseleave it is '0', and the page after
    entering and leaving is exactly the page after leaving alone; the
    other style properties of the card and the styles of all other
    elements are never touched. *)
Theorem card_leave_undoes_enter (card : Card) (p : Page) :
  let n := card_node card in
  style_of (exec (card_mouseenter card) p) n = with_zIndex "1" (style_of p n) /\
  style_of (exec (card_mouseleave card) p) n = with_zIndex "0" (style_of p n) /\
  (forall e, e <> n ->
     style_of (exec (card_mouseenter card) p) e = style_of p e /\
     style_of (exec (card_mouseleave card) p) e = style_of p e) /\
  exec (card_mouseleave card) (exec (card_mouseenter card) p)
  = exec (card_mouseleave card) p.
Proof.
  intros n. unfold card_mouseenter, card_mouseleave. fold n.
  split; [apply style_of_set_style_eq |]. split; [apply style_of_set_style_eq |].
  split.
  - intros e He. split; apply style_of_set_style_ne; congruence.
  - apply page_ext; try reflexivity.
    change (<[n := with_zIndex "0" (style_of (exec (set_style n (with_zIndex "1")) p) n)]>
              (<[n := with_zIndex "1" (style_of p n)]> (inline_style p))
            = <[n := with_zIndex "0" (style_of p n)]> (inline_style p)).
    rewrite style_of_set_style_eq, insert_insert_eq. reflexivity.
Qed.

Section ProjectLink.

Variable qs : Page -> string -> Completion (option Element).

Lemma startup_keeps_cards : keeps projectCards (startup qs).
Proof.
  unfold startup, script_toplevel, step. cbn [handler]. keeps_field.
Qed.

Lemma startup_registers_card_listeners (p : Page) (l : Listener) :
  has_toggle p ->
  l ∈ mjoin (imap card_listeners (projectCards p)) ->
  l ∈ listeners (exec (startup qs) p).
Proof.
  intros Hp Hl. unfold exec. rewrite startup_dispatch.
  set (p0 := set_defaultPrevented false _).
  assert (Hp0 : has_toggle p0) by exact Hp.
  rewrite (domContentLoaded_chain p0 Hp0). cbn [snd].
  set (p5 := exec addActiveNavStyles _).
  assert (Hc5 : projectCards p5 = projectCards p).
  { unfold p5.
    rewrite ((ltac:(keeps_field) : keeps projectCards addActiveNavStyles) _).
    rewrite ((ltac:(keeps_field) : keeps projectCards initActiveNavTracking) _).
    rewrite ((ltac:(keeps_field) : keeps projectCards initScrollReveal) _).
    rewrite ((ltac:(keeps_field) : keeps projectCards initThemeToggle) _).
    reflexivity. }
  unfold exec. rewrite initProjectCardInteractions_run. cbn [snd listeners set_listeners].
  apply elem_of_app. right. rewrite Hc5. exact Hl.
Qed.

(** X25: after loading a page that has the toggle button, a click on
    the link of a card reaches its listener, which writes one console
    line with the card's title and changes nothing else, or ends in a
    TypeError when the card has no title element; in neither case is the
    default navigation prevented. *)
Theorem project_link_click_after_startup (p : Page) (c : nat) (card : Card) :
  has_toggle p ->
  projectCards p !! c = Some card ->
  projectLink card = true ->
  let p1 := exec (startup qs) p in
  ProjectLinkClick c ∈ listeners p1 /\
  (forall title, projectTitle card = Some title ->
     step qs (Fire (ProjectLinkClick c)) p1
     = (Normal tt,
        set_console (console p1 ++ ["Navigating to project: " +:+ title])
          (set_defaultPrevented false p1))) /\
  (projectTitle card = None ->
     step qs (Fire (ProjectLinkClick c)) p1
     = (Throw TypeError, set_defaultPrevented false p1)).
Proof.
  intros Hp Hc Hlink p1.
  assert (Hreg : ProjectLinkClick c ∈ listeners p1).
  { apply (startup_registers_card_listeners p _ Hp).
    apply list_elem_of_join. exists (card_listeners c card). split.
    - unfold card_listeners. rewrite Hlink. right. right. left.
    - apply list_elem_of_lookup. exists c. rewrite list_lookup_imap, Hc. reflexivity. }
  assert (Hcards : projectCards (set_defaultPrevented false p1) !! c = Some card).
  { change (projectCards p1 !! c = Some card). unfold p1.
    rewrite (startup_keeps_cards p). exact Hc. }
  assert (Hstep : step qs (Fire (ProjectLinkClick c)) p1
                  = projectLink_click card (set_defaultPrevented false p1)).
  { unfold step, bind, gets, modify. rewrite (bool_decide_eq_true_2 _ Hreg).
    cbn [handler]. unfold bind, gets. rewrite Hcards. reflexivity. }
  split; [exact Hreg |]. rewrite Hstep. unfold projectLink_click. split.
  - intros title Ht. rewrite Ht. reflexivity.
  - intros Ht. rewrite Ht. reflexivity.
Qed.

End ProjectLink.

Lemma project_link_click_after_startup_witness :
  has_toggle sample_page /\
  projectCards sample_page !! 0%nat = Some sample_card /\
  projectLink sample_card = true /\
  console (exec (step sample_querySelector (Fire (ProjectLinkClick 0)))
             (exec (startup sample_querySelector) sample_page))
  = ["Portfolio loaded and initialized"; "Navigating to project: Portfolio"].
Proof.
  assert (Hp : has_toggle sample_page) by (unfold has_toggle; simpl; discriminate).
  split; [exact Hp |]. split; [reflexivity |]. split; [reflexivity |].
  destruct (project_link_click_after_startup sample_querySelector sample_page 0
              sample_card Hp eq_refl eq_refl) as (_ & Hlog & _).
  unfold exec at 1. rewrite (Hlog "Portfolio" eq_refl).
  vm_compute. reflexivity.
Defined.

Lemma debounce_keeps_one_timer_witness :
  Debounce.timers
    (Debounce.host_run 250 [Debounce.Call "a"; Debounce.Call "b"] (Debounce.fresh 0))
    !! 2%nat = Some (250, "b") /\
  Debounce.timeout
    (Debounce.host_run 250 [Debounce.Call "a"; Debounce.Call "b"] (Debounce.fresh 0))
  = Some 2%nat.
Proof.
  assert (Hl : Debounce.timers
            (Debounce.host_run 250 [Debounce.Call "a"; Debounce.Call "b"] (Debounce.fresh 0))
            !! 2%nat = Some (250, "b")) by (vm_compute; reflexivity).
  split; [exact Hl |].
  destruct (debounce_keeps_one_timer 250 0 [Debounce.Call "a"; Debounce.Call "b"])
    as [_ Hone].
  exact (proj1 (Hone 2%nat 250 "b" Hl)).
Defined.
